(** * Care-bot User API server: sessions and authentication

    A shallow embedding of the session subsystem of the server
    ([Database/authentication.py], [Database/connector.py] and
    [Routers/authentication.py]) together with the properties its
    specification states about it.

    The Python code talks to a relational store through SQLAlchemy ORM
    sessions and signals failures with exceptions.  Both are made explicit:
    a computation is a function from a state to an outcome (a value or a
    raised exception) and a new state.  Python's [try]/[except]/[finally]
    is a combinator on such computations. *)

From stdpp Require Import gmap strings list fin_maps.
From Stdlib Require Import ZArith Lia.

Open Scope string_scope.
Open Scope Z_scope.

(** ** Exceptions and outcomes *)

(** The exceptions the modelled code can meet.  [SQLAlchemyError] stands for
    the whole class caught by [except SQLAlchemyError]; [TypeError] is what
    subscripting [None] raises; [HTTPException] carries the status code and
    the [type] and [message] entries of its detail. *)
Inductive exn : Type :=
| SQLAlchemyError
| TypeError
| KeyError
| HTTPException (status_code : Z) (type message : string).

Inductive outcome (A : Type) : Type :=
| Normal (a : A)
| Raise (e : exn).
Arguments Normal {A} a.
Arguments Raise {A} e.

(** A computation over a state [S]. *)
Definition M (S A : Type) : Type := S → outcome A * S.

#[global] Instance M_ret {S} : MRet (M S) := λ A a s, (Normal a, s).

#[global] Instance M_bind {S} : MBind (M S) :=
  λ A B k m s, match m s with
               | (Normal a, s') => k a s'
               | (Raise e, s') => (Raise e, s')
               end.

Definition raise {S A} (e : exn) : M S A := λ s, (Raise e, s).

(** ** try / except SQLAlchemyError / finally

    Every [try] statement of the modelled code has the same shape: one local
    variable (called [result] or [user_id]) is initialised before the [try],
    assigned at the end of the [try] block and again in the handler, and read
    in the [finally] clause.  In each of them no assignment to that variable
    precedes a statement that can raise, so when an exception leaves the block
    or the handler the variable still holds its initial value [init].

    [run_try] runs the block and, on [SQLAlchemyError], the handler.  It
    yields the value of the local variable and the exception still in
    flight, if any: only [SQLAlchemyError] is caught, and an exception raised
    by the handler itself is in flight too. *)
Definition run_try {S A} (init : A) (body handler : M S A) : S → A * option exn * S :=
  λ s, match body s with
       | (Normal a, s1) => (a, None, s1)
       | (Raise SQLAlchemyError, s1) =>
           match handler s1 with
           | (Normal a, s2) => (a, None, s2)
           | (Raise e, s2) => (init, Some e, s2)
           end
       | (Raise e, s1) => (init, Some e, s1)
       end.

(** [finally: fin; return local].  The [return] inside [finally] discards an
    exception in flight; an exception raised by [fin] itself happens before
    the [return] is reached and escapes. *)
Definition try_finally_return {S A} (init : A) (body handler : M S A)
    (fin : M S unit) : M S A :=
  λ s, let '(local, _, s2) := run_try init body handler s in
       match fin s2 with
       | (Normal _, s3) => (Normal local, s3)
       | (Raise e, s3) => (Raise e, s3)
       end.

(** [finally: fin local] with no [return]: after the clause an exception in
    flight is raised again; an exception raised by [fin] replaces it. *)
Definition try_finally {S A} (init : A) (body handler : M S A)
    (fin : A → M S unit) : M S A :=
  λ s, let '(local, pending, s2) := run_try init body handler s in
       match fin local s2 with
       | (Normal _, s3) =>
           match pending with
           | None => (Normal local, s3)
           | Some e => (Raise e, s3)
           end
       | (Raise e, s3) => (Raise e, s3)
       end.

(** ** The data model *)

(** Modelled from the spec: [Database/models.py] is not part of the sources.
    [Role] is the closed set of roles the account routes accept. *)
Inductive Role : Type := TEST | MAIN | SUB | SYSTEM.

#[global] Instance Role_eq_dec : EqDecision Role.
Proof. solve_decision. Defined.

(** Modelled from the spec: the columns of [AccountsTable] that the modelled
    code reads; the table is keyed by the account id.  Dates and the gender
    are kept as opaque strings. *)
Record AccountsTable : Type := {
  email : string;
  password : string;
  role : Role;
  user_name : string;
  birth_date : string;
  gender : string;
  address : string;
}.

(** Modelled from the spec: [FamiliesTable], keyed by the family id. *)
Record FamiliesTable : Type := {
  main_user : string;
  family_name : string;
}.

(** Modelled from the spec: a row of [LoginSessionsTable] without its primary
    key [xid], which is the key of the table.  [last_active] is in whole
    seconds since the epoch, the unit in which [check_current_user] compares
    ([int(time())] against [int(last_active.timestamp())]). *)
Record SessionRow : Type := {
  user_id : string;
  last_active : Z;
  is_main_user : bool;
}.

(** An ORM object of [LoginSessionsTable]: the primary key with the row. *)
Record LoginSessionsTable : Type := {
  xid : string;
  columns : SessionRow;
}.

(** [LoginSessionsTable(xid=.., user_id=.., is_main_user=..)]: a new object
    as [login] builds it, with [last_active] left to the store. *)
Record NewLoginSession : Type := {
  new_xid : string;
  new_user_id : string;
  new_is_main_user : bool;
}.

(** Values found in the dictionaries the connector returns. *)
Inductive value : Type :=
| VStr (s : string)
| VRole (r : Role).

(** ** The world: the store, the open ORM session, clock and console *)

Record World : Type := {
  accounts : gmap string AccountsTable;
  families : gmap string FamiliesTable;
  (** committed rows of the sessions table *)
  login_sessions : gmap string SessionRow;
  (** the sessions table as the open ORM session sees it: the committed
      rows with the session's own uncommitted changes *)
  work : gmap string SessionRow;
  (** a pending INSERT of the open ORM session clashes with an existing
      primary key *)
  conflict : bool;
  (** wall clock, whole seconds *)
  clock : Z;
  (** which of the coming statements sent to the store fail ([true]), in
      order; after the end of the list none fails *)
  faults : list bool;
  (** lines printed, latest first *)
  stdout : list string;
  (** the tokens [random_xid] will draw *)
  rand : nat → string;
}.

Definition set_login_sessions (t : gmap string SessionRow) (w : World) : World :=
  {| accounts := accounts w; families := families w; login_sessions := t;
     work := work w; conflict := conflict w; clock := clock w;
     faults := faults w; stdout := stdout w; rand := rand w |}.

Definition set_work (t : gmap string SessionRow) (w : World) : World :=
  {| accounts := accounts w; families := families w;
     login_sessions := login_sessions w;
     work := t; conflict := conflict w; clock := clock w;
     faults := faults w; stdout := stdout w; rand := rand w |}.

Definition set_conflict (b : bool) (w : World) : World :=
  {| accounts := accounts w; families := families w;
     login_sessions := login_sessions w;
     work := work w; conflict := b; clock := clock w;
     faults := faults w; stdout := stdout w; rand := rand w |}.

Definition set_clock (t : Z) (w : World) : World :=
  {| accounts := accounts w; families := families w;
     login_sessions := login_sessions w;
     work := work w; conflict := conflict w; clock := t;
     faults := faults w; stdout := stdout w; rand := rand w |}.

Definition set_faults (f : list bool) (w : World) : World :=
  {| accounts := accounts w; families := families w;
     login_sessions := login_sessions w;
     work := work w; conflict := conflict w; clock := clock w;
     faults := f; stdout := stdout w; rand := rand w |}.

Definition set_stdout (o : list string) (w : World) : World :=
  {| accounts := accounts w; families := families w;
     login_sessions := login_sessions w;
     work := work w; conflict := conflict w; clock := clock w;
     faults := faults w; stdout := o; rand := rand w |}.

Definition set_rand (r : nat → string) (w : World) : World :=
  {| accounts := accounts w; families := families w;
     login_sessions := login_sessions w;
     work := work w; conflict := conflict w; clock := clock w;
     faults := faults w; stdout := stdout w; rand := r |}.

Definition set_accounts (a : gmap string AccountsTable) (w : World) : World :=
  {| accounts := a; families := families w;
     login_sessions := login_sessions w;
     work := work w; conflict := conflict w; clock := clock w;
     faults := faults w; stdout := stdout w; rand := rand w |}.

(** Computations of the database layer. *)
Abbreviation Db := (M World).

(** ** Primitives: console, clock, the ORM session *)

Definition gets {A} (f : World → A) : Db A := λ w, (Normal (f w), w).
Definition modify (f : World → World) : Db unit := λ w, (Normal tt, f w).

Definition print (line : string) : Db unit :=
  modify (λ w, set_stdout (line :: stdout w) w).

(** [int(time())], and [func.now()] on the store's side. *)
Definition time : Db Z := gets clock.

(** [await sleep(seconds)]. *)
Definition sleep (seconds : Z) : Db unit :=
  modify (λ w, set_clock (clock w + seconds) w).

(** Every statement sent to the store takes the next entry of the fault
    schedule and raises [SQLAlchemyError] when it is [true]. *)
Definition storage_call : Db unit :=
  λ w, match faults w with
       | [] => (Normal tt, w)
       | false :: fs => (Normal tt, set_faults fs w)
       | true :: fs => (Raise SQLAlchemyError, set_faults fs w)
       end.

(** A fresh ORM session sees the committed rows and has nothing pending. *)
Definition fresh_session (w : World) : World :=
  set_conflict false (set_work (login_sessions w) w).

(** [with database_pre_session() as session:] opens a fresh ORM session.
    Closing it drops what was not committed, which leaves the committed
    rows as they are. *)
Definition with_session {A} (block : Db A) : Db A :=
  λ w, block (fresh_session w).

(** [session.commit()]: flushes the pending changes and commits.  With
    [autoflush=False] a pending INSERT or DELETE reaches the store only
    here, so a clashing primary key is reported here too. *)
Definition session_commit : Db unit :=
  storage_call ;;
  clash ← gets conflict ;
  if clash : bool then raise SQLAlchemyError
  else modify (λ w, set_login_sessions (work w) w).

(** [session.rollback()]. *)
Definition session_rollback : Db unit :=
  storage_call ;; modify fresh_session.

(** [session.add(session_data)]: marks the new object as pending; nothing
    is sent to the store.
    Modelled from the spec: the new row's [last_active], which the caller
    does not set, is the current time. *)
Definition session_add (session_data : NewLoginSession) : Db unit :=
  modify (λ w,
    match work w !! new_xid session_data with
    | Some _ => set_conflict true w
    | None =>
        set_work (<[new_xid session_data :=
                      {| user_id := new_user_id session_data;
                         last_active := clock w;
                         is_main_user := new_is_main_user session_data |}]>
                    (work w)) w
    end).

(** [session.delete(obj)]: marks the object as deleted. *)
Definition session_delete (obj : LoginSessionsTable) : Db unit :=
  modify (λ w, set_work (delete (xid obj) (work w)) w).

(** [session.query(LoginSessionsTable).filter(LoginSessionsTable.xid == session_id).first()] *)
Definition query_login_session (session_id : string) : Db (option LoginSessionsTable) :=
  storage_call ;;
  gets (λ w, (λ r, {| xid := session_id; columns := r |}) <$> work w !! session_id).

(** [session.query(LoginSessionsTable).filter(LoginSessionsTable.xid == session_id)
      .update({LoginSessionsTable.last_active: func.now()})] *)
Definition refresh_last_active (now : Z) (r : SessionRow) : SessionRow :=
  {| user_id := user_id r; last_active := now; is_main_user := is_main_user r |}.

Definition update_last_active (session_id : string) : Db unit :=
  storage_call ;;
  modify (λ w, set_work (alter (refresh_last_active (clock w)) session_id (work w)) w).

(** The rows selected by the sweep:
    [last_active < expired_time] and [is_main_user == False]. *)
Definition is_expired (expired_time : Z) (r : SessionRow) : bool :=
  bool_decide (last_active r < expired_time) && negb (is_main_user r).

(** [session.query(LoginSessionsTable).filter(and_(..)).all()] *)
Definition query_expired_sessions (expired_time : Z) : Db (list LoginSessionsTable) :=
  storage_call ;;
  gets (λ w, (λ p : string * SessionRow, {| xid := p.1; columns := p.2 |}) <$>
             filter (λ p : string * SessionRow, is_expired expired_time p.2 = true)
                    (map_to_list (work w))).

(** [session.query(AccountsTable...).filter(AccountsTable.id == account_id).first()] *)
Definition query_account (account_id : string) : Db (option AccountsTable) :=
  storage_call ;; gets (λ w, accounts w !! account_id).

(** [session.query(FamiliesTable...).filter(FamiliesTable.id == family_id).first()] *)
Definition query_family (family_id : string) : Db (option FamiliesTable) :=
  storage_call ;; gets (λ w, families w !! family_id).

(** [row[0]] on what [first()] gave: subscripting [None] raises [TypeError]. *)
Definition subscript {A} (row : option A) : Db A :=
  match row with
  | Some a => mret a
  | None => raise TypeError
  end.

(** [for session_data in expired_sessions: body(session_data)] *)
Fixpoint for_each {A} (l : list A) (body : A → Db unit) : Db unit :=
  match l with
  | [] => mret tt
  | x :: l' => body x ;; for_each l' body
  end.

(** ** Database/authentication.py *)

Definition create_session (session_data : NewLoginSession) : Db bool :=
  with_session
    (try_finally_return false
       (session_add session_data ;;
        print "[DB] New session created" ;;
        mret true)
       (session_rollback ;;
        print "[DB] Error creating new session" ;;
        mret false)
       session_commit).

Definition delete_session (session_id : string) : Db bool :=
  with_session
    (try_finally_return false
       (session_data ← query_login_session session_id ;
        match session_data with
        | Some obj => session_delete obj ;; mret true
        | None => mret false
        end)
       (session_rollback ;;
        print "[DB] Error deleting session" ;;
        mret false)
       session_commit).

Record Request : Type := { cookies : gmap string string }.

(** Python's [not s] for an optional string: [None] and the empty string. *)
Definition is_blank (s : option string) : bool :=
  match s with
  | None => true
  | Some s => bool_decide (s = "")
  end.

(** The [try] block of [check_current_user]; its value is what [user_id]
    holds when the block is left, by a [return] or at its end. *)
Definition check_current_user_block (session_expire_time : Z) (session_id : string) : Db string :=
  login_data ← query_login_session session_id ;
  match login_data with
  | None => mret ""
  | Some obj =>
      expired ←
        (if negb (is_main_user (columns obj)) then
           current_time ← time ;
           mret (bool_decide (current_time - last_active (columns obj) > session_expire_time))
         else mret false) ;
      if expired : bool then
        session_delete obj ;;
        session_commit ;;
        mret ""
      else
        update_last_active session_id ;;
        mret (user_id (columns obj))
  end.

Definition check_current_user (session_expire_time : Z) (request : Request) : Db string :=
  let session_id := cookies request !! "session_id" in
  if is_blank session_id then mret ""
  else
    with_session
      (try_finally_return ""
         (check_current_user_block session_expire_time (default "" session_id))
         (session_rollback ;;
          print "[DB] Error checking current user" ;;
          mret "")
         session_commit).

(** One round of the [while True] loop of [cleanup_login_sessions]. *)
Definition cleanup_round (session_expire_time session_cleanup_interval : Z) : Db unit :=
  sleep session_cleanup_interval ;;
  with_session
    (try_finally false
       (current_time ← time ;
        let expired_time := current_time - session_expire_time in
        expired_sessions ← query_expired_sessions expired_time ;
        for_each expired_sessions session_delete ;;
        mret true)
       (session_rollback ;;
        print "[DB] Error cleaning up login sessions" ;;
        mret false)
       (λ result : bool,
          session_commit ;;
          if result then print "[DB] Cleaned up login sessions"
          else print "[DB] Failed to clean up login sessions")) ;;
  mret tt.

(** [cleanup_login_sessions] never returns; [rounds] bounds how many rounds
    of the loop are run.  A [Normal] outcome means the loop is still running
    after that many rounds, a [Raise] that an exception ended it. *)
Fixpoint cleanup_login_sessions (session_expire_time session_cleanup_interval : Z)
    (rounds : nat) : Db unit :=
  match rounds with
  | O => mret tt
  | S n =>
      cleanup_round session_expire_time session_cleanup_interval ;;
      cleanup_login_sessions session_expire_time session_cleanup_interval n
  end.

(** ** Database/connector.py *)

Definition serialize_account (account_id : string) (a : AccountsTable) : gmap string value :=
  {[ "id" := VStr account_id;
     "email" := VStr (email a);
     "role" := VRole (role a);
     "user_name" := VStr (user_name a);
     "birth_date" := VStr (birth_date a);
     "gender" := VStr (gender a);
     "address" := VStr (address a) ]}.

Definition get_one_account (account_id : string) : Db (gmap string value) :=
  with_session
    (try_finally_return ∅
       (account_data ← query_account account_id ;
        match account_data with
        | Some a => mret (serialize_account account_id a)
        | None => mret ∅
        end)
       (session_rollback ;;
        print "[DB] Error getting one account data" ;;
        mret ∅)
       (mret tt)).

(** The [try] block of [get_hashed_password]: the row that [first()] gave
    is subscripted without a test for [None]. *)
Definition get_hashed_password_block (account_id : string) : Db string :=
  row ← query_account account_id ;
  hashed_password ← subscript (password <$> row) ;
  mret hashed_password.

Definition get_hashed_password (account_id : string) : Db string :=
  with_session
    (try_finally_return ""
       (get_hashed_password_block account_id)
       (session_rollback ;;
        print "[DB] Error getting hashed password" ;;
        mret "")
       (mret tt)).

Definition serialize_family (family_id : string) (f : FamiliesTable) : gmap string value :=
  {[ "id" := VStr family_id;
     "main_user" := VStr (main_user f);
     "family_name" := VStr (family_name f) ]}.

(** The [try] block of [get_one_family]: [family_data[0]], [family_data[1]]
    and [family_data[2]] are read without a test for [None]. *)
Definition get_one_family_block (family_id : string) : Db (gmap string value) :=
  family_data ← query_family family_id ;
  f ← subscript family_data ;
  mret (serialize_family family_id f).

Definition get_one_family (family_id : string) : Db (gmap string value) :=
  with_session
    (try_finally_return ∅
       (get_one_family_block family_id)
       (session_rollback ;;
        print "[DB] Error getting one family data" ;;
        mret ∅)
       (mret tt)).

(** Modelled from the spec: [get_id_from_email] is called by [login] but is
    not part of the sources.  It is given the shape of its sibling
    [main_id_to_family_id]: the id of the first account with that email, or
    the empty string when there is none or the query fails. *)
Definition query_account_id_by_email (address : string) : Db (option string) :=
  storage_call ;;
  gets (λ w, fst <$> head (filter (λ p : string * AccountsTable, email p.2 = address)
                                  (map_to_list (accounts w)))).

Definition get_id_from_email (address : string) : Db string :=
  with_session
    (try_finally_return ""
       (account_id ← query_account_id_by_email address ;
        match account_id with
        | Some i => mret i
        | None => mret ""
        end)
       (session_rollback ;;
        print "[DB] Error getting id from email" ;;
        mret "")
       (mret tt)).

(** Modelled from the spec: [random_xid] of [Utilities/auth_tools.py] is not
    part of the sources.  It draws the next token of the world's tape. *)
Definition random_xid (length : Z) : Db string :=
  token ← gets (λ w, rand w O) ;
  modify (λ w, set_rand (λ n, rand w (S n)) w) ;;
  mret token.

(** ** Routers/authentication.py *)

Inductive cookie_header : Type :=
| SetCookie (key val : string)
| DeleteCookie (key : string).

(** The response object handed to a route: the cookie headers put on it,
    latest first. *)
Record Response : Type := { cookie_headers : list cookie_header }.

Definition set_cookie_header (h : cookie_header) (r : Response) : Response :=
  {| cookie_headers := h :: cookie_headers r |}.

(** A route runs on the response object and the world. *)
Abbreviation Route := (M (Response * World)).

Definition db {A} (m : Db A) : Route A :=
  λ s, let '(o, w) := m s.2 in (o, (s.1, w)).

Definition set_cookie (key val : string) : Route unit :=
  λ s, (Normal tt, (set_cookie_header (SetCookie key val) s.1, s.2)).

Definition delete_cookie (key : string) : Route unit :=
  λ s, (Normal tt, (set_cookie_header (DeleteCookie key) s.1, s.2)).

(** The JSON bodies of the two routes. *)
Inductive Body : Type :=
| MessageBody (message : string)
| LoginBody (message session_id : string) (user_data : gmap string value).

Record Login : Type := {
  login_email : option string;
  login_password : option string;
}.

Definition HTTP_401 : exn := HTTPException 401 "unauthorized" "Invalid email or password".

(** [d[key]] *)
Definition getitem (d : gmap string value) (key : string) : Route value :=
  match d !! key with
  | Some v => mret v
  | None => raise KeyError
  end.

Section Routers.

(** [verify_password] of [Utilities/auth_tools.py], which is not part of
    the sources: the credential verifier, taken as a parameter. *)
Variable verify_password : string → string → bool.

Definition login (login_data : Login) : Route Body :=
  if is_blank (login_email login_data) || is_blank (login_password login_data) then
    raise (HTTPException 422 "no data" "Login data is required")
  else
    let address := default "" (login_email login_data) in
    user_id ← db (get_id_from_email address) ;
    if bool_decide (user_id = "") then raise HTTP_401
    else
      user_data ← db (get_one_account user_id) ;
      if bool_decide (user_data = ∅) then raise HTTP_401
      else
        let input_password := default "" (login_password login_data) in
        hashed_password ← db (get_hashed_password user_id) ;
        let is_verified := verify_password input_password hashed_password in
        if negb is_verified then raise HTTP_401
        else
          new_xid ← db (random_xid 16) ;
          user_role ← getitem user_data "role" ;
          let new_session :=
            {| new_xid := new_xid;
               new_user_id := user_id;
               new_is_main_user :=
                 match user_role with VRole MAIN => true | _ => false end |} in
          result ← db (create_session new_session) ;
          if negb result then
            raise (HTTPException 500 "server error" "Failed to create session")
          else
            set_cookie "session_id" new_xid ;;
            mret (LoginBody "Login successful" new_xid user_data).

End Routers.

Definition logout (request : Request) : Route Body :=
  let session_id := cookies request !! "session_id" in
  (if negb (is_blank session_id) then
     result ← db (delete_session (default "" session_id)) ;
     if negb result then
       raise (HTTPException 500 "server error" "Failed to delete session")
     else
       delete_cookie "session_id"
   else mret tt) ;;
  mret (MessageBody "Logout successful").

(** ** A concrete world for the examples

    Two accounts, the sessions A (of the main user) and B (of another
    member), both last active 10000 seconds before the clock's 20000. *)

Definition alice : AccountsTable :=
  {| email := "alice@example.org"; password := "hash:secret"; role := MAIN;
     user_name := "Alice"; birth_date := "1950-03-01"; gender := "F";
     address := "Seoul" |}.

Definition bob : AccountsTable :=
  {| email := "bob@example.org"; password := "hash:hunter2"; role := SUB;
     user_name := "Bob"; birth_date := "1982-11-23"; gender := "M";
     address := "Busan" |}.

Definition session_A : SessionRow :=
  {| user_id := "u-alice"; last_active := 10000; is_main_user := true |}.

Definition session_B : SessionRow :=
  {| user_id := "u-bob"; last_active := 10000; is_main_user := false |}.

Definition world0 : World :=
  {| accounts := {[ "u-alice" := alice; "u-bob" := bob ]};
     families := ∅;
     login_sessions := {[ "A" := session_A; "B" := session_B ]};
     work := ∅;
     conflict := false;
     clock := 20000;
     faults := [];
     stdout := [];
     rand := λ n, match n with O => "k3Jx0PqLm9ZtYw2B" | _ => "Qw8nRt5vXc1aHs7D" end |}.

Definition with_cookie (session_id : string) : Request :=
  {| cookies := {[ "session_id" := session_id ]} |}.

Definition no_headers : Response := {| cookie_headers := [] |}.

(** A verifier for the examples: the hash of [pw] is ["hash:" ++ pw]. *)
Definition toy_verify (pw h : string) : bool := bool_decide (h = "hash:" +:+ pw).

(** ** Vocabulary of the properties *)

(** A non-privileged row whose idle time at [now] exceeds the timeout. *)
Definition lapsed (session_expire_time now : Z) (r : SessionRow) : bool :=
  negb (is_main_user r) && bool_decide (now - last_active r > session_expire_time).

(** What one sweep leaves of a table. *)
Definition swept (expired_time : Z) (row : option SessionRow) : option SessionRow :=
  match row with
  | Some r => if is_expired expired_time r then None else Some r
  | None => None
  end.

(** The tables and the clock are the same in both worlds. *)
Definition same_store (w w' : World) : Prop :=
  accounts w' = accounts w ∧ login_sessions w' = login_sessions w ∧
  clock w' = clock w.

(** A computation that never looks at the accounts table: run on a world
    with another accounts table it does the same. *)
Definition ignores_accounts {A} (m : Db A) : Prop :=
  ∀ t w, m (set_accounts t w) = ((m w).1, set_accounts t (m w).2).

(** Alice logs in with her password. *)
Definition alice_logs_in : outcome Body * (Response * World) :=
  login toy_verify
    {| login_email := Some "alice@example.org"; login_password := Some "secret" |}
    (no_headers, world0).

(** ** Vocabulary of the further properties *)

(** The row [create_session] inserts at time [now]. *)
Definition inserted_row (session_data : NewLoginSession) (now : Z) : SessionRow :=
  {| user_id := new_user_id session_data;
     last_active := now;
     is_main_user := new_is_main_user session_data |}.

(** ** Database/authentication.py, continued: [get_login_session] *)

(** Values of the dictionary [get_login_session] returns. *)
Inductive session_value : Type :=
| SStr (s : string)
| STime (t : Z)
| SBool (b : bool).

Definition serialize_login_session (obj : LoginSessionsTable) : gmap string session_value :=
  {[ "xid" := SStr (xid obj);
     "user_id" := SStr (user_id (columns obj));
     "last_active" := STime (last_active (columns obj));
     "is_main_user" := SBool (is_main_user (columns obj)) ]}.

Definition get_login_session (session_id : string) : Db (gmap string session_value) :=
  with_session
    (try_finally_return ∅
       (login_data ← query_login_session session_id ;
        match login_data with
        | Some obj => mret (serialize_login_session obj)
        | None => mret ∅
        end)
       (session_rollback ;;
        print "[DB] Error getting login session" ;;
        mret ∅)
       (mret tt)).

(** ** Database/connector.py, continued: the queries that read *)

(** [session.query(AccountsTable. ...).all()]: the rows with their keys, in
    the order the store gives them. *)
Definition query_all_accounts : Db (list (string * AccountsTable)) :=
  storage_call ;; gets (λ w, map_to_list (accounts w)).

(** [session.query(FamiliesTable. ...).all()] *)
Definition query_all_families : Db (list (string * FamiliesTable)) :=
  storage_call ;; gets (λ w, map_to_list (families w)).

Definition get_all_email : Db (list (gmap string value)) :=
  with_session
    (try_finally_return []
       (account_list ← query_all_accounts ;
        mret ((λ data : string * AccountsTable, {[ "email" := VStr (email data.2) ]})
                <$> account_list))
       (session_rollback ;;
        print "[DB] Error getting all email" ;;
        mret [])
       (mret tt)).

Definition get_all_account_id : Db (list (gmap string value)) :=
  with_session
    (try_finally_return []
       (id_list ← query_all_accounts ;
        mret ((λ data : string * AccountsTable, {[ "id" := VStr data.1 ]}) <$> id_list))
       (session_rollback ;;
        print "[DB] Error getting all account id" ;;
        mret [])
       (mret tt)).

Definition get_all_accounts : Db (list (gmap string value)) :=
  with_session
    (try_finally_return []
       (account_list ← query_all_accounts ;
        mret ((λ data : string * AccountsTable, serialize_account data.1 data.2)
                <$> account_list))
       (session_rollback ;;
        print "[DB] Error getting all account data" ;;
        mret [])
       (mret tt)).

Definition get_all_family_id : Db (list (gmap string value)) :=
  with_session
    (try_finally_return []
       (id_list ← query_all_families ;
        mret ((λ data : string * FamiliesTable, {[ "id" := VStr data.1 ]}) <$> id_list))
       (session_rollback ;;
        print "[DB] Error getting all family id" ;;
        mret [])
       (mret tt)).

Definition get_all_family_main : Db (list (gmap string value)) :=
  with_session
    (try_finally_return []
       (main_id_list ← query_all_families ;
        mret ((λ data : string * FamiliesTable, {[ "main_id" := VStr (main_user data.2) ]})
                <$> main_id_list))
       (session_rollback ;;
        print "[DB] Error getting all family main id" ;;
        mret [])
       (mret tt)).

Definition get_all_families : Db (list (gmap string value)) :=
  with_session
    (try_finally_return []
       (family_list ← query_all_families ;
        mret ((λ data : string * FamiliesTable, serialize_family data.1 data.2)
                <$> family_list))
       (session_rollback ;;
        print "[DB] Error getting all family data" ;;
        mret [])
       (mret tt)).

(** [session.query(FamiliesTable.id).filter(FamiliesTable.main_user == main_id).first()] *)
Definition query_family_id_by_main (main_id : string) : Db (option string) :=
  storage_call ;;
  gets (λ w, fst <$> head (filter (λ p : string * FamiliesTable, main_user p.2 = main_id)
                                  (map_to_list (families w)))).

Definition main_id_to_family_id (main_id : string) : Db string :=
  with_session
    (try_finally_return ""
       (family_id ← query_family_id_by_main main_id ;
        match family_id with
        | Some i => mret i
        | None => mret ""
        end)
       (session_rollback ;;
        print "[DB] Error getting family id from main id" ;;
        mret "")
       (mret tt)).

(** ** main.py: the routes that read *)

#[global] Instance value_eq_dec : EqDecision value.
Proof. solve_decision. Defined.

(** [d[key]], in any computation. *)
Definition item {S} (d : gmap string value) (key : string) : M S value :=
  match d !! key with
  | Some v => mret v
  | None => raise KeyError
  end.

(** [[body(x) for x in l]] *)
Fixpoint comprehension {S A B} (l : list A) (body : A → M S B) : M S (list B) :=
  match l with
  | [] => mret []
  | x :: l' => y ← body x ; ys ← comprehension l' body ; mret (y :: ys)
  end.

(** The JSON bodies of the account routes. *)
Inductive AccountsBody : Type :=
| AccountsMessage (message : string)
| AccountsOne (message : string) (result : gmap string value)
| AccountsMany (message : string) (result : list (gmap string value)).

Module Main.

Definition check_email (email_check : option string) : Db AccountsBody :=
  let target_email := email_check in
  rows ← get_all_email ;
  email_list ← comprehension rows (λ data, item data "email") ;
  if is_blank target_email then
    raise (HTTPException 422 "no data" "Email is required")
  else if bool_decide (VStr (default "" target_email) ∈ email_list) then
    raise (HTTPException 409 "already exists" "Email is already in use")
  else
    mret (AccountsMessage "Email is available").

Definition get_all_accounts : Db AccountsBody :=
  account_list ← get_all_accounts ;
  if bool_decide (account_list ≠ []) then
    mret (AccountsMany "All accounts retrieved successfully" account_list)
  else
    mret (AccountsMany "No accounts found" account_list).

Definition get_account (user_id : string) : Db AccountsBody :=
  account_data ← get_one_account user_id ;
  if bool_decide (account_data ≠ ∅) then
    mret (AccountsOne "Account retrieved successfully" account_data)
  else
    raise (HTTPException 404 "not found" "Account not found").

End Main.

(** ** Writing to the accounts and families tables

    The functions that write to the accounts and families tables run on a
    [Store]: the world, and beside it the two tables as the open ORM session
    sees them, with the session's own uncommitted changes. *)

Definition set_families (f : gmap string FamiliesTable) (w : World) : World :=
  {| accounts := accounts w; families := f;
     login_sessions := login_sessions w;
     work := work w; conflict := conflict w; clock := clock w;
     faults := faults w; stdout := stdout w; rand := rand w |}.

Record Store : Type := {
  world : World;
  account_work : gmap string AccountsTable;
  family_work : gmap string FamiliesTable;
  (** a pending INSERT into one of the two tables clashes with an existing
      primary key *)
  clash : bool;
}.

Definition set_world (w : World) (s : Store) : Store :=
  {| world := w; account_work := account_work s;
     family_work := family_work s; clash := clash s |}.

Definition set_account_work (t : gmap string AccountsTable) (s : Store) : Store :=
  {| world := world s; account_work := t;
     family_work := family_work s; clash := clash s |}.

Definition set_family_work (t : gmap string FamiliesTable) (s : Store) : Store :=
  {| world := world s; account_work := account_work s;
     family_work := t; clash := clash s |}.

Definition set_clash (b : bool) (s : Store) : Store :=
  {| world := world s; account_work := account_work s;
     family_work := family_work s; clash := b |}.

Abbreviation Tx := (M Store).

(** A computation of the database layer, run on the world of the store. *)
Definition in_world {A} (m : Db A) : Tx A :=
  λ s, let '(o, w) := m (world s) in (o, set_world w s).

Definition gets_store {A} (f : Store → A) : Tx A := λ s, (Normal (f s), s).
Definition modify_store (f : Store → Store) : Tx unit := λ s, (Normal tt, f s).

(** A fresh ORM session sees the committed tables. *)
Definition open_session (s : Store) : Store :=
  {| world := fresh_session (world s);
     account_work := accounts (world s);
     family_work := families (world s);
     clash := false |}.

(** [with self.pre_session() as session:] *)
Definition with_store_session {A} (block : Tx A) : Tx A :=
  λ s, block (open_session s).

(** What a commit that goes through makes of the committed tables. *)
Definition flush (s : Store) : Store :=
  set_world
    (set_families (family_work s)
       (set_accounts (account_work s)
          (set_login_sessions (work (world s)) (world s)))) s.

(** [session.commit()] *)
Definition store_commit : Tx unit :=
  in_world storage_call ;;
  clashes ← gets_store (λ s, clash s || conflict (world s)) ;
  if clashes : bool then raise SQLAlchemyError
  else modify_store flush.

(** [session.rollback()] *)
Definition store_rollback : Tx unit :=
  in_world storage_call ;; modify_store open_session.

(** [session.query(AccountsTable).filter(AccountsTable.id == account_id).first()],
    an object of the open session. *)
Definition query_account_object (account_id : string) : Tx (option AccountsTable) :=
  in_world storage_call ;; gets_store (λ s, account_work s !! account_id).

(** [session.query(FamiliesTable).filter(FamiliesTable.id == family_id).first()] *)
Definition query_family_object (family_id : string) : Tx (option FamiliesTable) :=
  in_world storage_call ;; gets_store (λ s, family_work s !! family_id).

(** An assignment to attributes of the object with that id: a pending
    change of the open session. *)
Definition assign_account (account_id : string) (f : AccountsTable → AccountsTable) : Tx unit :=
  modify_store (λ s, set_account_work (alter f account_id (account_work s)) s).

Definition assign_family (family_id : string) (f : FamiliesTable → FamiliesTable) : Tx unit :=
  modify_store (λ s, set_family_work (alter f family_id (family_work s)) s).

(** [session.add(account_data)] and [session.add(family_data)] *)
Definition account_add (account_id : string) (account_data : AccountsTable) : Tx unit :=
  modify_store (λ s,
    match account_work s !! account_id with
    | Some _ => set_clash true s
    | None => set_account_work (<[account_id := account_data]> (account_work s)) s
    end).

Definition family_add (family_id : string) (family_data : FamiliesTable) : Tx unit :=
  modify_store (λ s,
    match family_work s !! family_id with
    | Some _ => set_clash true s
    | None => set_family_work (<[family_id := family_data]> (family_work s)) s
    end).

(** The attributes of an account, one setter each. *)
Definition with_email (v : string) (a : AccountsTable) : AccountsTable :=
  {| email := v; password := password a; role := role a; user_name := user_name a;
     birth_date := birth_date a; gender := gender a; address := address a |}.
Definition with_password (v : string) (a : AccountsTable) : AccountsTable :=
  {| email := email a; password := v; role := role a; user_name := user_name a;
     birth_date := birth_date a; gender := gender a; address := address a |}.
Definition with_role (v : Role) (a : AccountsTable) : AccountsTable :=
  {| email := email a; password := password a; role := v; user_name := user_name a;
     birth_date := birth_date a; gender := gender a; address := address a |}.
Definition with_user_name (v : string) (a : AccountsTable) : AccountsTable :=
  {| email := email a; password := password a; role := role a; user_name := v;
     birth_date := birth_date a; gender := gender a; address := address a |}.
Definition with_birth_date (v : string) (a : AccountsTable) : AccountsTable :=
  {| email := email a; password := password a; role := role a; user_name := user_name a;
     birth_date := v; gender := gender a; address := address a |}.
Definition with_gender (v : string) (a : AccountsTable) : AccountsTable :=
  {| email := email a; password := password a; role := role a; user_name := user_name a;
     birth_date := birth_date a; gender := v; address := address a |}.
Definition with_address (v : string) (a : AccountsTable) : AccountsTable :=
  {| email := email a; password := password a; role := role a; user_name := user_name a;
     birth_date := birth_date a; gender := gender a; address := v |}.

Definition with_main_user (v : string) (f : FamiliesTable) : FamiliesTable :=
  {| main_user := v; family_name := family_name f |}.
Definition with_family_name (v : string) (f : FamiliesTable) : FamiliesTable :=
  {| main_user := main_user f; family_name := v |}.

(** [if updated.x is not None: previous.x = updated.x] *)
Definition assign_if_given {A R} (given : option A) (set : A → R → R) (r : R) : R :=
  match given with
  | Some v => set v r
  | None => r
  end.

(** ** Database/authentication.py, continued: [change_password] *)

Definition change_password (user_id new_hased_password : string) : Tx bool :=
  with_store_session
    (try_finally_return false
       (previous_account ← query_account_object user_id ;
        match previous_account with
        | Some _ =>
            assign_account user_id (with_password new_hased_password) ;;
            mret true
        | None => mret false
        end)
       (store_rollback ;;
        in_world (print "[DB] Error changing password") ;;
        mret false)
       store_commit).

(** ** Database/connector.py, continued: the functions that write

    [create_account] and [create_family] are given a new object: its id,
    which is the key of the table, and its other columns.  The functions that
    delete an account or a family are left out: what a deletion does to the
    rows that refer to the deleted one is decided by [Database/models.py],
    which is not part of the sources. *)

Definition create_account (account_id : string) (account_data : AccountsTable) : Tx bool :=
  with_store_session
    (try_finally_return false
       (account_add account_id account_data ;;
        in_world (print "[DB] New account created") ;;
        mret true)
       (store_rollback ;;
        in_world (print "[DB] Error creating new account") ;;
        mret false)
       store_commit).

(** The transient object [update_one_account] is given: every attribute may
    be [None]. *)
Record AccountUpdate : Type := {
  new_email : option string;
  new_role : option Role;
  new_user_name : option string;
  new_birth_date : option string;
  new_gender : option string;
  new_address : option string;
}.

Definition apply_account_update (updated_account : AccountUpdate) (previous_account : AccountsTable)
    : AccountsTable :=
  assign_if_given (new_address updated_account) with_address
    (assign_if_given (new_gender updated_account) with_gender
       (assign_if_given (new_birth_date updated_account) with_birth_date
          (assign_if_given (new_user_name updated_account) with_user_name
             (assign_if_given (new_role updated_account) with_role
                (assign_if_given (new_email updated_account) with_email
                   previous_account))))).

Definition update_one_account (account_id : string) (updated_account : AccountUpdate) : Tx bool :=
  with_store_session
    (try_finally_return false
       (previous_account ← query_account_object account_id ;
        match previous_account with
        | Some _ =>
            assign_account account_id (apply_account_update updated_account) ;;
            mret true
        | None => mret false
        end)
       (store_rollback ;;
        in_world (print "[DB] Error updating one account data") ;;
        mret false)
       store_commit).

(** The handler of [create_family] does not assign [result], which then
    still holds its initial [False]. *)
Definition create_family (family_id : string) (family_data : FamiliesTable) : Tx bool :=
  with_store_session
    (try_finally_return false
       (family_add family_id family_data ;;
        in_world (print "[DB] New family created") ;;
        mret true)
       (store_rollback ;;
        in_world (print "[DB] Error creating new family") ;;
        mret false)
       store_commit).

Record FamilyUpdate : Type := {
  new_main_user : option string;
  new_family_name : option string;
}.

Definition apply_family_update (updated_family : FamilyUpdate) (previous_family : FamiliesTable)
    : FamiliesTable :=
  assign_if_given (new_family_name updated_family) with_family_name
    (assign_if_given (new_main_user updated_family) with_main_user previous_family).

Definition update_one_family (family_id : string) (updated_family : FamilyUpdate) : Tx bool :=
  with_store_session
    (try_finally_return false
       (previous_family ← query_family_object family_id ;
        match previous_family with
        | Some _ =>
            assign_family family_id (apply_family_update updated_family) ;;
            mret true
        | None => mret false
        end)
       (store_rollback ;;
        in_world (print "[DB] Error updating one family data") ;;
        mret false)
       store_commit).

(** ** Routers/authentication.py, continued: the change-password route *)

Record ChangePassword : Type := {
  cp_user_id : option string;
  cp_current_password : option string;
  cp_new_password : option string;
}.

(** [request_id = Depends(Database.check_current_user)]: the dependency is
    resolved on the request, then the route runs on its result. *)
Definition depends_current_user {A} (session_expire_time : Z) (request : Request)
    (route : string → Tx A) : Tx A :=
  request_id ← in_world (check_current_user session_expire_time request) ;
  route request_id.

Module Routers.
Section ChangePasswordRoute.

(** [verify_password] and [hash_password] of [Utilities/auth_tools.py], which
    is not part of the sources, taken as parameters. *)
Variable verify_password : string → string → bool.
Variable hash_password : string → string.

Definition change_password (change_password_data : ChangePassword) (request_id : string)
    : Tx Body :=
  let target_user_id := default "" (cp_user_id change_password_data) in
  let missing_location :=
    (["body"]
     ++ (if is_blank (cp_user_id change_password_data) then ["user_id"] else [])
     ++ (if is_blank (cp_current_password change_password_data)
         then ["current_password"] else [])
     ++ (if is_blank (cp_new_password change_password_data)
         then ["new_password"] else []))%list in
  if bool_decide (1 < length missing_location)%nat then
    raise (HTTPException 422 "no data" "Change password data is required")
  else
    request_data ← in_world (get_one_account request_id) ;
    no_permission ←
      (if bool_decide (request_data = ∅) then mret true
       else
         requester_role ← item request_data "role" ;
         mret (bool_decide (requester_role ≠ VRole SYSTEM)
               && bool_decide (target_user_id ≠ request_id))) ;
    if no_permission : bool then
      raise (HTTPException 403 "can not access" "You do not have permission")
    else
      user_data ← in_world (get_one_account target_user_id) ;
      if bool_decide (user_data = ∅) then
        raise (HTTPException 404 "not found" "User not found")
      else
        requester_role ← item request_data "role" ;
        (if bool_decide (requester_role ≠ VRole SYSTEM) then
           let input_current_password :=
             default "" (cp_current_password change_password_data) in
           hashed_current_password ← in_world (get_hashed_password target_user_id) ;
           let is_verified_current :=
             verify_password input_current_password hashed_current_password in
           if negb is_verified_current then
             raise (HTTPException 401 "unauthorized" "Invalid password")
           else mret tt
         else mret tt) ;;
        let new_password := default "" (cp_new_password change_password_data) in
        let hashed_new_password := hash_password new_password in
        result ← change_password target_user_id hashed_new_password ;
        if result : bool then mret (MessageBody "Password changed successfully")
        else raise (HTTPException 500 "server error" "Failed to change password").

End ChangePasswordRoute.
End Routers.

(** Change-password data with its three fields given. *)
Definition complete (t c n : string) : ChangePassword :=
  {| cp_user_id := Some t; cp_current_password := Some c; cp_new_password := Some n |}.

(** ** A store for the examples *)

Definition store0 : Store :=
  {| world := world0; account_work := ∅; family_work := ∅; clash := false |}.

Definition toy_hash (pw : string) : string := "hash:" +:+ pw.

Definition root : AccountsTable :=
  {| email := "root@example.org"; password := "hash:toor"; role := SYSTEM;
     user_name := "Root"; birth_date := "1970-01-01"; gender := "OTHER";
     address := "Daejeon" |}.

Definition home : FamiliesTable :=
  {| main_user := "u-alice"; family_name := "Home" |}.

(** The example world with the system account and Alice's family. *)
Definition world1 : World :=
  set_families {[ "f-home" := home ]}
    (set_accounts (<["u-root" := root]> (accounts world0)) world0).

Definition store1 : Store :=
  {| world := world1; account_work := ∅; family_work := ∅; clash := false |}.

(** Two updates for the examples. *)
Definition promote_and_move : AccountUpdate :=
  {| new_email := None; new_role := Some MAIN; new_user_name := None;
     new_birth_date := None; new_gender := None; new_address := Some "Jeju" |}.

Definition rename : AccountUpdate :=
  {| new_email := None; new_role := None; new_user_name := Some "Robert";
     new_birth_date := None; new_gender := None; new_address := None |}.

Definition move_in : FamilyUpdate :=
  {| new_main_user := Some "u-bob"; new_family_name := None |}.

(** * Properties *)

(** ** Running computations *)

Lemma bind_normal {S A B} (m : M S A) (k : A → M S B) s a s' :
  m s = (Normal a, s') → (m ≫= k) s = k a s'.
Proof. intros H. unfold mbind, M_bind. by rewrite H. Qed.

Lemma bind_raise {S A B} (m : M S A) (k : A → M S B) s e s' :
  m s = (Raise e, s') → (m ≫= k) s = (Raise e, s').
Proof. intros H. unfold mbind, M_bind. by rewrite H. Qed.

Lemma try_finally_return_normal {S A} (init : A) body handler (fin : M S unit) s a s1 s2 :
  body s = (Normal a, s1) →
  fin s1 = (Normal tt, s2) →
  try_finally_return init body handler fin s = (Normal a, s2).
Proof. intros Hb Hf. unfold try_finally_return, run_try. by rewrite Hb, Hf. Qed.

(** Unfolds the sequencing of a computation applied to a state. *)
Ltac run :=
  unfold mbind, M_bind, mret, M_ret, time, gets, modify, raise, session_delete, print;
  cbn.

(** ** Runs without storage faults *)

Section FaultFree.
Variable w : World.
Hypothesis no_faults : faults w = [].

Lemma storage_call_ok : storage_call w = (Normal tt, w).
Proof. unfold storage_call. by rewrite no_faults. Qed.

Lemma query_login_session_ok session_id :
  query_login_session session_id w =
  (Normal ((λ r, {| xid := session_id; columns := r |}) <$> work w !! session_id), w).
Proof. unfold query_login_session. by rewrite (bind_normal _ _ _ _ _ storage_call_ok). Qed.

Lemma query_account_ok account_id :
  query_account account_id w = (Normal (accounts w !! account_id), w).
Proof. unfold query_account. by rewrite (bind_normal _ _ _ _ _ storage_call_ok). Qed.

Lemma query_family_ok family_id :
  query_family family_id w = (Normal (families w !! family_id), w).
Proof. unfold query_family. by rewrite (bind_normal _ _ _ _ _ storage_call_ok). Qed.

Lemma session_commit_ok :
  conflict w = false →
  session_commit w = (Normal tt, set_login_sessions (work w) w).
Proof.
  intros Hc. unfold session_commit.
  rewrite (bind_normal _ _ _ _ _ storage_call_ok).
  unfold mbind, M_bind, gets, modify. by rewrite Hc.
Qed.

Lemma update_last_active_ok session_id :
  update_last_active session_id w =
  (Normal tt, set_work (alter (refresh_last_active (clock w)) session_id (work w)) w).
Proof. unfold update_last_active. by rewrite (bind_normal _ _ _ _ _ storage_call_ok). Qed.

Lemma query_expired_sessions_ok expired_time :
  query_expired_sessions expired_time w =
  (Normal ((λ p : string * SessionRow, {| xid := p.1; columns := p.2 |}) <$>
           filter (λ p : string * SessionRow, is_expired expired_time p.2 = true)
                  (map_to_list (work w))), w).
Proof. unfold query_expired_sessions. by rewrite (bind_normal _ _ _ _ _ storage_call_ok). Qed.
End FaultFree.

(** [delete_session] on a world without faults. *)
Lemma delete_session_present w session_id r :
  faults w = [] →
  login_sessions w !! session_id = Some r →
  delete_session session_id w =
  (Normal true,
   set_login_sessions (delete session_id (login_sessions w))
     (set_work (delete session_id (login_sessions w)) (fresh_session w))).
Proof.
  intros Hf Hr. unfold delete_session, with_session.
  eapply try_finally_return_normal.
  - erewrite bind_normal; [|by apply query_login_session_ok].
    cbn. rewrite Hr. cbn. reflexivity.
  - by rewrite session_commit_ok.
Qed.

Lemma delete_session_absent w session_id :
  faults w = [] →
  login_sessions w !! session_id = None →
  delete_session session_id w =
  (Normal false, set_login_sessions (login_sessions w) (fresh_session w)).
Proof.
  intros Hf Hr. unfold delete_session, with_session.
  eapply try_finally_return_normal.
  - erewrite bind_normal; [|by apply query_login_session_ok].
    cbn. rewrite Hr. cbn. reflexivity.
  - by rewrite session_commit_ok.
Qed.

(** [check_current_user] on a world without faults: the two ways through
    the [try] block for a session that exists. *)
Lemma check_current_user_lapsed timeout w request session_id r :
  faults w = [] →
  cookies request !! "session_id" = Some session_id →
  session_id ≠ "" →
  login_sessions w !! session_id = Some r →
  lapsed timeout (clock w) r = true →
  check_current_user timeout request w =
  (Normal "",
   set_login_sessions (delete session_id (login_sessions w))
     (set_work (delete session_id (login_sessions w)) (fresh_session w))).
Proof.
  intros Hf Hc Hne Hr Hl. unfold check_current_user, with_session.
  rewrite Hc. cbn [is_blank default]. rewrite bool_decide_false by done.
  apply andb_true_iff in Hl as [Hm Ht].
  eapply try_finally_return_normal with (s1 := set_login_sessions _ (set_work _ (fresh_session w))).
  - unfold check_current_user_block.
    erewrite bind_normal; [|by apply query_login_session_ok].
    cbn. rewrite Hr. cbn. rewrite Hm. run. rewrite Ht.
    by rewrite session_commit_ok.
  - by rewrite session_commit_ok.
Qed.

Lemma check_current_user_live timeout w request session_id r :
  faults w = [] →
  cookies request !! "session_id" = Some session_id →
  session_id ≠ "" →
  login_sessions w !! session_id = Some r →
  lapsed timeout (clock w) r = false →
  check_current_user timeout request w =
  (Normal (user_id r),
   set_login_sessions
     (<[session_id := refresh_last_active (clock w) r]> (login_sessions w))
     (set_work (<[session_id := refresh_last_active (clock w) r]> (login_sessions w))
        (fresh_session w))).
Proof.
  intros Hf Hc Hne Hr Hl. unfold check_current_user, with_session.
  rewrite Hc. cbn [is_blank default]. rewrite bool_decide_false by done.
  assert (Ha : alter (refresh_last_active (clock w)) session_id (login_sessions w)
               = <[session_id := refresh_last_active (clock w) r]> (login_sessions w)).
  { apply map_eq. intros k. rewrite lookup_alter, lookup_insert.
    repeat case_decide; simplify_eq; by rewrite ?Hr. }
  rewrite <- Ha.
  eapply try_finally_return_normal.
  - unfold check_current_user_block.
    erewrite bind_normal; [|by apply query_login_session_ok].
    cbn. rewrite Hr. cbn. unfold lapsed in Hl.
    destruct (is_main_user r); cbn in Hl |- *; run; rewrite ?Hl;
      by rewrite update_last_active_ok.
  - by rewrite session_commit_ok.
Qed.

(** ** Lazy expiry on resolution *)

(** C1: resolving a non-privileged session whose idle time [now - last_active]
    strictly exceeds the idle timeout returns the empty user id and deletes
    the session: it is no longer in the store afterwards, and no other row
    changes.  (Stated for a store that answers without faults and for a
    non-empty session id, as [random_xid] produces them.) *)
Theorem expired_session_is_deleted timeout w request session_id s :
  faults w = [] →
  cookies request !! "session_id" = Some session_id →
  session_id ≠ "" →
  login_sessions w !! session_id = Some s →
  is_main_user s = false →
  clock w - last_active s > timeout →
  ∃ w', check_current_user timeout request w = (Normal "", w') ∧
        login_sessions w' !! session_id = None ∧
        login_sessions w' = delete session_id (login_sessions w).
Proof.
  intros Hf Hc Hne Hs Hm Ht.
  eexists. split; [|split].
  - eapply check_current_user_lapsed; eauto.
    unfold lapsed. rewrite Hm. cbn. by apply bool_decide_eq_true.
  - cbn. apply lookup_delete_eq.
  - reflexivity.
Qed.

Lemma expired_session_is_deleted_witness :
  ∃ w', check_current_user 1800 (with_cookie "B") world0 = (Normal "", w') ∧
        login_sessions w' !! "B" = None ∧
        login_sessions w' = delete "B" (login_sessions world0).
Proof.
  apply (expired_session_is_deleted 1800 world0 (with_cookie "B") "B" session_B);
    [reflexivity | reflexivity | discriminate | reflexivity | reflexivity | reflexivity].
Defined.

(** ** Refresh on resolution *)

(** C4: resolving a session that is valid and not expired (privileged, or
    non-privileged with [now - last_active] within the idle timeout) returns
    the owning user id and sets the row's [last_active] to the time of the
    resolution, its owner and its flag staying as they were.  Resolving the
    same session id again at once returns the same user id, and so does
    resolving it at any time that is within the timeout of the first
    resolution, however long the session had been idle before that.
    (The idle timeout is taken non-negative, as its default 1800 is.) *)
Theorem live_session_is_refreshed timeout w request session_id s :
  faults w = [] →
  0 ≤ timeout →
  cookies request !! "session_id" = Some session_id →
  session_id ≠ "" →
  login_sessions w !! session_id = Some s →
  is_main_user s = true ∨ clock w - last_active s ≤ timeout →
  ∃ w1 s1,
    check_current_user timeout request w = (Normal (user_id s), w1) ∧
    login_sessions w1 !! session_id = Some s1 ∧
    last_active s1 = clock w ∧
    user_id s1 = user_id s ∧
    is_main_user s1 = is_main_user s ∧
    (check_current_user timeout request w1).1 = Normal (user_id s) ∧
    ∀ later, later - clock w ≤ timeout →
             (check_current_user timeout request (set_clock later w1)).1
             = Normal (user_id s).
Proof.
  intros Hf H0 Hc Hne Hs Hok.
  assert (Hlive : ∀ later, later - clock w ≤ timeout →
            lapsed timeout later (refresh_last_active (clock w) s) = false).
  { intros later Hle. unfold lapsed. cbn.
    rewrite bool_decide_false by lia. apply andb_false_r. }
  eexists _, (refresh_last_active (clock w) s).
  split; [|split; [|split; [|split; [|split; [|split]]]]].
  - eapply check_current_user_live; eauto.
    unfold lapsed. destruct Hok as [-> | Hle]; [done|].
    rewrite bool_decide_false by lia. apply andb_false_r.
  - cbn. apply lookup_insert_eq.
  - reflexivity.
  - reflexivity.
  - reflexivity.
  - rewrite (check_current_user_live timeout _ request session_id
               (refresh_last_active (clock w) s)); [reflexivity|done|done|done| |].
    + cbn. apply lookup_insert_eq.
    + apply Hlive. cbn. lia.
  - intros later Hle.
    rewrite (check_current_user_live timeout _ request session_id
               (refresh_last_active (clock w) s)); [reflexivity|done|done|done| |].
    + cbn. apply lookup_insert_eq.
    + by apply Hlive.
Qed.

(** B, idle for exactly the timeout at 11800, is resolved; it then resolves
    at 13600, which is 3600 seconds after its old [last_active] and 1800
    after the resolution. *)
Lemma live_session_is_refreshed_witness :
  ∃ w1 s1,
    check_current_user 1800 (with_cookie "B") (set_clock 11800 world0)
    = (Normal "u-bob", w1) ∧
    login_sessions w1 !! "B" = Some s1 ∧
    last_active s1 = 11800 ∧
    user_id s1 = "u-bob" ∧
    is_main_user s1 = false ∧
    (check_current_user 1800 (with_cookie "B") w1).1 = Normal "u-bob" ∧
    (check_current_user 1800 (with_cookie "B") (set_clock 13600 w1)).1 = Normal "u-bob".
Proof.
  destruct (live_session_is_refreshed 1800 (set_clock 11800 world0) (with_cookie "B")
              "B" session_B)
    as (w1 & s1 & Hrun & Hrow & Hlast & Huser & Hflag & Hagain & Hlater);
    [reflexivity | lia | reflexivity | discriminate | reflexivity | right; cbn; lia |].
  exists w1, s1. repeat (split; [assumption|]).
  apply Hlater. cbn. lia.
Defined.

(** ** Deleting a session *)

(** C6: when the session exists, a first [delete_session] returns [True] and
    removes the row, a second one with the same id returns [False] and leaves
    the store as it is; both calls return, neither raises. *)
Theorem delete_session_twice w session_id s :
  faults w = [] →
  login_sessions w !! session_id = Some s →
  ∃ w1 w2,
    delete_session session_id w = (Normal true, w1) ∧
    login_sessions w1 = delete session_id (login_sessions w) ∧
    login_sessions w1 !! session_id = None ∧
    delete_session session_id w1 = (Normal false, w2) ∧
    login_sessions w2 = login_sessions w1.
Proof.
  intros Hf Hs.
  eexists _, _. split; [by eapply delete_session_present|].
  split; [done|]. split; [cbn; apply lookup_delete_eq|].
  split; [|reflexivity].
  apply delete_session_absent; [done|]. cbn. apply lookup_delete_eq.
Qed.

Lemma delete_session_twice_witness :
  ∃ w1 w2,
    delete_session "B" world0 = (Normal true, w1) ∧
    login_sessions w1 = delete "B" (login_sessions world0) ∧
    login_sessions w1 !! "B" = None ∧
    delete_session "B" w1 = (Normal false, w2) ∧
    login_sessions w2 = login_sessions w1.
Proof.
  apply (delete_session_twice world0 "B" session_B); reflexivity.
Defined.

(** ** The cleanup sweep *)

Lemma set_work_id w : set_work (work w) w = w.
Proof. by destruct w. Qed.

(** The loop over the selected rows marks each of them as deleted. *)
Lemma for_each_session_delete (l : list LoginSessionsTable) w :
  for_each l session_delete w =
  (Normal tt, set_work (foldl (λ m obj, delete (xid obj) m) (work w) l) w).
Proof.
  revert w. induction l as [|obj l IH]; intros w; cbn [for_each foldl].
  - by rewrite set_work_id.
  - unfold mbind, M_bind, session_delete at 1, modify. by rewrite IH.
Qed.

Lemma lookup_foldl_delete (l : list LoginSessionsTable) (m : gmap string SessionRow) k :
  foldl (λ m obj, delete (xid obj) m) m l !! k =
  if decide (k ∈ xid <$> l) then None else m !! k.
Proof.
  revert m. induction l as [|obj l IH]; intros m; cbn [foldl].
  - case_decide as Hin; [|done]. by apply elem_of_nil in Hin.
  - rewrite IH, fmap_cons.
    destruct (decide (k ∈ xid <$> l)) as [Hin|Hin];
      destruct (decide (k ∈ xid obj :: (xid <$> l))) as [Hin'|Hin']; try done.
    + exfalso. apply Hin', elem_of_cons. by right.
    + apply elem_of_cons in Hin' as [->|?]; [|done]. apply lookup_delete_eq.
    + apply lookup_delete_ne. intros <-. apply Hin', elem_of_cons. by left.
Qed.

(** The keys of the rows the sweep's query selects. *)
Lemma elem_of_expired_xids (m : gmap string SessionRow) expired_time k :
  k ∈ xid <$> ((λ p : string * SessionRow, {| xid := p.1; columns := p.2 |}) <$>
               filter (λ p : string * SessionRow, is_expired expired_time p.2 = true)
                      (map_to_list m))
  ↔ ∃ r, m !! k = Some r ∧ is_expired expired_time r = true.
Proof.
  rewrite <- list_fmap_compose. rewrite list_elem_of_fmap. split.
  - intros ([k' r] & -> & Hin). apply list_elem_of_filter in Hin as [He Hin].
    apply elem_of_map_to_list in Hin. by exists r.
  - intros (r & Hr & He). exists (k, r). split; [done|].
    apply list_elem_of_filter. split; [done|]. by apply elem_of_map_to_list.
Qed.

Lemma cleanup_round_ok timeout interval w :
  faults w = [] →
  ∃ w', cleanup_round timeout interval w = (Normal tt, w') ∧
        clock w' = clock w + interval ∧
        stdout w' = "[DB] Cleaned up login sessions" :: stdout w ∧
        ∀ k, login_sessions w' !! k =
             swept (clock w + interval - timeout) (login_sessions w !! k).
Proof.
  intros Hf. unfold cleanup_round, with_session, try_finally, run_try.
  unfold mbind at 1 2 3 4, M_bind at 1 2 3 4, sleep, time, gets, modify. cbn.
  rewrite query_expired_sessions_ok by done. cbn.
  unfold mbind at 1, M_bind at 1. rewrite for_each_session_delete. cbn.
  unfold mbind at 1, M_bind at 1. rewrite session_commit_ok by done. cbn.
  eexists. split; [reflexivity|]. cbn. split; [done|]. split; [done|].
  intros k. rewrite lookup_foldl_delete. unfold swept.
  case_decide as Hin.
  - apply elem_of_expired_xids in Hin as (r & -> & ->). done.
  - destruct (login_sessions w !! k) as [r|] eqn:Hr; [|done].
    destruct (is_expired _ r) eqn:He; [|done].
    exfalso. apply Hin. apply elem_of_expired_xids. eauto.
Qed.

(** C3: one round of the cleanup sweep, run at time [now], deletes exactly
    the non-privileged sessions whose [last_active] is older than the cutoff
    [now - timeout]; every privileged session and every non-privileged
    session within the timeout stays as it was. *)
Theorem sweep_deletes_exactly_expired timeout interval w :
  faults w = [] →
  ∃ w', cleanup_round timeout interval w = (Normal tt, w') ∧
        let now := clock w + interval in
        ∀ session_id,
          login_sessions w' !! session_id =
          match login_sessions w !! session_id with
          | Some s =>
              if bool_decide (last_active s < now - timeout ∧ is_main_user s = false)
              then None else Some s
          | None => None
          end.
Proof.
  intros Hf. destruct (cleanup_round_ok timeout interval w Hf) as (w' & Hrun & _ & _ & Hk).
  exists w'. split; [done|]. intros now k. rewrite Hk. unfold swept, is_expired.
  destruct (login_sessions w !! k) as [s|]; [|done].
  destruct (decide (last_active s < now - timeout)) as [Hlt|Hge];
    destruct (is_main_user s) eqn:Hm.
  - rewrite andb_false_r, bool_decide_false; [done|]. by intros [_ ?].
  - by rewrite !bool_decide_true.
  - rewrite andb_false_r, bool_decide_false; [done|]. by intros [_ ?].
  - rewrite !bool_decide_false; [done| |done]. by intros [? _].
Qed.

(** The example of the specification: A privileged, B not, both last active
    10000 seconds before the sweep, timeout 1800: B goes and A stays. *)
Lemma sweep_deletes_exactly_expired_witness :
  ∃ w', cleanup_round 1800 600 (set_clock 19400 world0) = (Normal tt, w') ∧
        login_sessions w' !! "A" = Some session_A ∧
        login_sessions w' !! "B" = None.
Proof.
  destruct (sweep_deletes_exactly_expired 1800 600 (set_clock 19400 world0) eq_refl)
    as (w' & Hrun & Hk).
  exists w'. split; [exact Hrun|]. split; rewrite Hk; reflexivity.
Defined.

(** ** Logout *)

Lemma db_run {A} (m : Db A) response w o w' :
  m w = (o, w') → db m (response, w) = (o, (response, w')).
Proof. intros H. unfold db. cbn. by rewrite H. Qed.

(** Counterexample to C5: a logout whose [session_id] cookie names a session
    that is not in the store is answered with HTTP 500, not with the success
    message, and the cookie is not cleared. *)
Lemma logout_absent_session_is_error :
  faults world0 = [] ∧
  login_sessions world0 !! "gone" = None ∧
  ∃ w', logout (with_cookie "gone") (no_headers, world0) =
        (Raise (HTTPException 500 "server error" "Failed to delete session"),
         (no_headers, w')).
Proof.
  split; [reflexivity|]. split; [reflexivity|].
  eexists. vm_compute. reflexivity.
Qed.

(** C5, amended: for a logout request that carries a [session_id] cookie,
    [delete_session] reports an absent session by returning [False], without
    raising, and [logout] turns that into HTTP 500 "Failed to delete session"
    and leaves the cookie; when the session exists [logout] deletes it,
    clears the cookie and returns its success message. *)
Theorem logout_follows_delete_session w response request session_id :
  faults w = [] →
  cookies request !! "session_id" = Some session_id →
  session_id ≠ "" →
  ∃ w',
    login_sessions w' = delete session_id (login_sessions w) ∧
    match login_sessions w !! session_id with
    | None =>
        delete_session session_id w = (Normal false, w') ∧
        logout request (response, w) =
        (Raise (HTTPException 500 "server error" "Failed to delete session"),
         (response, w'))
    | Some _ =>
        delete_session session_id w = (Normal true, w') ∧
        logout request (response, w) =
        (Normal (MessageBody "Logout successful"),
         (set_cookie_header (DeleteCookie "session_id") response, w'))
    end.
Proof.
  intros Hf Hc Hne. unfold logout. rewrite Hc. cbn [is_blank default negb].
  rewrite bool_decide_false by done. cbn [negb].
  destruct (login_sessions w !! session_id) as [s|] eqn:Hs.
  - eexists. split; [|split; [by eapply delete_session_present|]].
    + reflexivity.
    + unfold mbind at 1 2, M_bind at 1 2.
      erewrite db_run by by eapply delete_session_present. reflexivity.
  - eexists. split; [|split; [by eapply delete_session_absent|]].
    + cbn. by rewrite delete_id.
    + unfold mbind at 1 2, M_bind at 1 2.
      erewrite db_run by by eapply delete_session_absent. reflexivity.
Qed.

Lemma logout_follows_delete_session_witness :
  ∃ w',
    login_sessions w' = delete "B" (login_sessions world0) ∧
    match login_sessions world0 !! "B" with
    | None =>
        delete_session "B" world0 = (Normal false, w') ∧
        logout (with_cookie "B") (no_headers, world0) =
        (Raise (HTTPException 500 "server error" "Failed to delete session"),
         (no_headers, w'))
    | Some _ =>
        delete_session "B" world0 = (Normal true, w') ∧
        logout (with_cookie "B") (no_headers, world0) =
        (Normal (MessageBody "Logout successful"),
         (set_cookie_header (DeleteCookie "session_id") no_headers, w'))
    end.
Proof.
  apply (logout_follows_delete_session world0 no_headers (with_cookie "B") "B");
    [reflexivity | reflexivity | discriminate].
Defined.

(** ** Login *)

Section FaultFreeConnector.
Variable w : World.
Hypothesis no_faults : faults w = [].

Lemma get_one_account_ok account_id :
  get_one_account account_id w =
  (Normal (match accounts w !! account_id with
           | Some a => serialize_account account_id a
           | None => ∅
           end), fresh_session w).
Proof.
  unfold get_one_account, with_session.
  eapply try_finally_return_normal; [|reflexivity].
  erewrite bind_normal; [|by apply query_account_ok].
  cbn. by destruct (accounts w !! account_id).
Qed.

Lemma get_hashed_password_ok account_id a :
  accounts w !! account_id = Some a →
  get_hashed_password account_id w = (Normal (password a), fresh_session w).
Proof.
  intros Ha. unfold get_hashed_password, with_session.
  eapply try_finally_return_normal; [|reflexivity].
  unfold get_hashed_password_block.
  erewrite bind_normal; [|by apply query_account_ok].
  cbn. by rewrite Ha.
Qed.

Lemma get_id_from_email_ok address :
  get_id_from_email address w =
  (Normal (default "" (fst <$> head (filter (λ p : string * AccountsTable, email p.2 = address)
                                            (map_to_list (accounts w))))),
   fresh_session w).
Proof.
  unfold get_id_from_email, with_session.
  eapply try_finally_return_normal; [|reflexivity].
  unfold query_account_id_by_email.
  erewrite bind_normal; [|erewrite bind_normal; [reflexivity|by apply storage_call_ok]].
  cbn. by destruct (head _).
Qed.
End FaultFreeConnector.

(** The account [get_id_from_email] picks has the email asked for. *)
Lemma first_account_with_email (t : gmap string AccountsTable) address i0 a0 :
  t !! i0 = Some a0 → email a0 = address →
  ∃ i a, head (filter (λ p : string * AccountsTable, email p.2 = address) (map_to_list t))
         = Some (i, a) ∧ t !! i = Some a ∧ email a = address.
Proof.
  intros Hi He.
  destruct (filter _ (map_to_list t)) as [|[i a] l] eqn:Hl.
  - assert (Hin : (i0, a0) ∈ filter (λ p : string * AccountsTable, email p.2 = address)
                                    (map_to_list t)).
    { apply list_elem_of_filter. split; [done|]. by apply elem_of_map_to_list. }
    rewrite Hl in Hin. by apply elem_of_nil in Hin.
  - exists i, a. split; [done|].
    assert (Hin : (i, a) ∈ filter (λ p : string * AccountsTable, email p.2 = address)
                                  (map_to_list t)).
    { rewrite Hl. apply elem_of_cons. by left. }
    apply list_elem_of_filter in Hin as [? Hin].
    by apply elem_of_map_to_list in Hin.
Qed.

Lemma serialize_account_non_empty account_id a : serialize_account account_id a ≠ ∅.
Proof. unfold serialize_account. apply insert_non_empty. Qed.

(** Counterexample to C7: the empty password fails verification against
    Alice's stored hash, and yet the login is answered with 422, not 401. *)
Lemma login_empty_password_is_422 :
  accounts world0 !! "u-alice" = Some alice ∧
  toy_verify "" (password alice) = false ∧
  ∃ w', login toy_verify
          {| login_email := Some (email alice); login_password := Some "" |}
          (no_headers, world0) =
        (Raise (HTTPException 422 "no data" "Login data is required"),
         (no_headers, w')).
Proof.
  split; [reflexivity|]. split; [reflexivity|].
  eexists. vm_compute. reflexivity.
Qed.

(** C7, amended: a login request with the email of an existing account and a
    non-empty password that fails verification against the stored hash is
    answered with 401 Unauthorized; no cookie is put on the response and the
    sessions table is left as it was.  With an empty password the request is
    rejected with 422 before any verification, equally without a cookie or
    a session row. *)
Theorem login_wrong_password verify_password w response address input_password :
  faults w = [] →
  address ≠ "" →
  (∃ i a, accounts w !! i = Some a ∧ email a = address) →
  (∀ i a, accounts w !! i = Some a → email a = address →
          verify_password input_password (password a) = false) →
  ∃ w',
    login verify_password
      {| login_email := Some address; login_password := Some input_password |}
      (response, w) =
    (Raise (if bool_decide (input_password = "")
            then HTTPException 422 "no data" "Login data is required"
            else HTTPException 401 "unauthorized" "Invalid email or password"),
     (response, w')) ∧
    login_sessions w' = login_sessions w.
Proof.
  intros Hf Hne (i0 & a0 & Hi0 & He0) Hbad. unfold login.
  cbn [is_blank login_email login_password default from_option id].
  rewrite (bool_decide_false (address = "")) by done. cbn [orb].
  case_bool_decide as Hpw; [by eexists|].
  destruct (first_account_with_email _ _ _ _ Hi0 He0) as (i & a & Hhead & Hi & He).
  unfold mbind at 1, M_bind at 1.
  erewrite db_run by by apply get_id_from_email_ok.
  rewrite Hhead. cbn [fmap option_fmap option_map default from_option id fst].
  case_bool_decide as Hid; [by eexists|].
  unfold mbind at 1, M_bind at 1.
  erewrite db_run by by apply get_one_account_ok.
  cbn [accounts fresh_session set_conflict set_work]. rewrite Hi.
  rewrite bool_decide_false by apply serialize_account_non_empty.
  unfold mbind at 1, M_bind at 1.
  erewrite db_run by by apply get_hashed_password_ok.
  cbv beta iota. rewrite (Hbad i a Hi He). cbn [negb]. by eexists.
Qed.

Lemma login_wrong_password_witness :
  ∃ w',
    login toy_verify
      {| login_email := Some "alice@example.org"; login_password := Some "guess" |}
      (no_headers, world0) =
    (Raise (if bool_decide ("guess" = "")
            then HTTPException 422 "no data" "Login data is required"
            else HTTPException 401 "unauthorized" "Invalid email or password"),
     (no_headers, w')) ∧
    login_sessions w' = login_sessions world0.
Proof.
  apply (login_wrong_password toy_verify world0 no_headers "alice@example.org" "guess").
  - reflexivity.
  - discriminate.
  - exists "u-alice", alice. split; reflexivity.
  - intros i a Hi He. unfold world0 in Hi. cbn in Hi.
    apply lookup_insert_Some in Hi as [[<- <-]|[_ Hi]]; [reflexivity|].
    apply lookup_singleton_Some in Hi as [<- <-]. discriminate He.
Defined.

(** ** Runs with storage faults *)

Lemma set_faults_id w : set_faults (faults w) w = w.
Proof. by destruct w. Qed.

(** A statement sent to the store either goes through or raises
    [SQLAlchemyError]; either way only the fault schedule moves on. *)
Lemma storage_call_cases w :
  ∃ fs, storage_call w = (Normal tt, set_faults fs w) ∨
        storage_call w = (Raise SQLAlchemyError, set_faults fs w).
Proof.
  unfold storage_call. destruct (faults w) as [|[] fs] eqn:Hf.
  - exists []. left. by rewrite <- Hf, set_faults_id.
  - exists fs. by right.
  - exists fs. by left.
Qed.

(** Splits on the outcome of the next statement sent to the store. *)
Ltac storage_step :=
  match goal with
  | |- context [storage_call ?w] =>
      let fs := fresh "fs" in
      destruct (storage_call_cases w) as [fs [-> | ->]]; cbn
  end.

Ltac unfold_db :=
  unfold with_session, try_finally_return, try_finally, run_try,
    session_commit, session_rollback, query_login_session, update_last_active,
    query_expired_sessions, query_account, query_family, query_account_id_by_email,
    subscript, mbind, M_bind, mret, M_ret, gets, modify, raise, print, time, sleep;
  cbn.

(** ** Lookups of rows that are not there *)

(** C10: for a family id with no matching row [get_one_family] returns the
    empty dict and raises nothing, whatever the store does: when the query
    goes through, the [try] block subscripts [None] and raises [TypeError],
    which the [return] in the [finally] clause discards.  In the same way
    [get_hashed_password] returns the empty string for an account id with no
    matching row. *)
Theorem missing_row_lookups_do_not_raise w family_id account_id :
  families w !! family_id = None →
  accounts w !! account_id = None →
  (get_one_family family_id w).1 = Normal ∅ ∧
  (get_hashed_password account_id w).1 = Normal "" ∧
  (faults w = [] →
   (get_one_family_block family_id (fresh_session w)).1 = Raise TypeError ∧
   (get_hashed_password_block account_id (fresh_session w)).1 = Raise TypeError).
Proof.
  intros Hfam Hacc. split; [|split].
  - unfold get_one_family, get_one_family_block. unfold_db.
    storage_step; [by rewrite Hfam|]. by storage_step.
  - unfold get_hashed_password, get_hashed_password_block. unfold_db.
    storage_step; [by rewrite Hacc|]. by storage_step.
  - intros Hf. split.
    + unfold get_one_family_block.
      erewrite bind_normal; [|by apply query_family_ok]. cbn. by rewrite Hfam.
    + unfold get_hashed_password_block.
      erewrite bind_normal; [|by apply query_account_ok]. cbn. by rewrite Hacc.
Qed.

Lemma missing_row_lookups_do_not_raise_witness :
  (get_one_family "f-none" world0).1 = Normal ∅ ∧
  (get_hashed_password "u-none" world0).1 = Normal "" ∧
  (get_one_family_block "f-none" (fresh_session world0)).1 = Raise TypeError ∧
  (get_hashed_password_block "u-none" (fresh_session world0)).1 = Raise TypeError.
Proof.
  destruct (missing_row_lookups_do_not_raise world0 "f-none" "u-none" eq_refl eq_refl)
    as (Hfamily & Hpassword & Hblocks).
  split; [exact Hfamily|]. split; [exact Hpassword|]. apply Hblocks. reflexivity.
Defined.

(** ** Privileged sessions *)

(** Whatever the cookie, the clock and the faults of the store, resolving
    leaves a privileged session in the table, with its owner and its flag. *)
Lemma check_current_user_keeps_privileged timeout request w session_id s :
  login_sessions w !! session_id = Some s →
  is_main_user s = true →
  ∃ s', login_sessions (check_current_user timeout request w).2 !! session_id = Some s' ∧
        is_main_user s' = true ∧ user_id s' = user_id s.
Proof.
  intros Hs Hm. unfold check_current_user.
  destruct (is_blank _); [by exists s|].
  generalize (default "" (cookies request !! "session_id")). intros k.
  unfold check_current_user_block, session_delete. unfold_db.
  storage_step.
  - destruct (login_sessions w !! k) as [r|] eqn:Hr; cbn.
    + destruct (is_main_user r) eqn:Hmr; cbn.
      * repeat storage_step; rewrite ?lookup_alter; repeat case_decide;
          simplify_eq; rewrite ?Hs; cbn; eauto.
      * assert (k ≠ session_id) by (intros ->; congruence).
        case_bool_decide; cbn.
        -- repeat storage_step; rewrite ?lookup_delete_ne by done; eauto.
        -- repeat storage_step; rewrite ?lookup_alter_ne by done; eauto.
    + repeat storage_step; eauto.
  - repeat storage_step; eauto.
Qed.

(** Nor does a round of the sweep remove it, whatever the faults. *)
Lemma cleanup_round_keeps_privileged timeout interval w session_id s :
  login_sessions w !! session_id = Some s →
  is_main_user s = true →
  login_sessions (cleanup_round timeout interval w).2 !! session_id = Some s.
Proof.
  intros Hs Hm. unfold cleanup_round. unfold_db.
  storage_step.
  - rewrite for_each_session_delete. cbn.
    assert (Hkeep : foldl (λ m obj, delete (xid obj) m) (login_sessions w)
              ((λ p : string * SessionRow, {| xid := p.1; columns := p.2 |}) <$>
               filter (λ p : string * SessionRow,
                         is_expired (clock w + interval - timeout) p.2 = true)
                      (map_to_list (login_sessions w))) !! session_id = Some s).
    { rewrite lookup_foldl_delete, decide_False; [done|].
      intros (r & Hr & He)%elem_of_expired_xids. simplify_eq.
      unfold is_expired in He. rewrite Hm in He. by rewrite andb_false_r in He. }
    by repeat storage_step.
  - by repeat storage_step.
Qed.

(** C2: a privileged session is never expired by resolving it.  However
    large [now - last_active] is, [check_current_user] returns its user id
    and keeps the row (store without faults); and whatever the request and
    whatever the store's faults, neither [check_current_user] nor a round of
    the cleanup sweep removes the row of a privileged session. *)
Theorem privileged_session_never_expires timeout interval w session_id s :
  login_sessions w !! session_id = Some s →
  is_main_user s = true →
  (∀ request,
     faults w = [] →
     cookies request !! "session_id" = Some session_id →
     session_id ≠ "" →
     ∃ w', check_current_user timeout request w = (Normal (user_id s), w') ∧
           login_sessions w' !! session_id = Some (refresh_last_active (clock w) s)) ∧
  (∀ request,
     ∃ s', login_sessions (check_current_user timeout request w).2 !! session_id = Some s' ∧
           is_main_user s' = true ∧ user_id s' = user_id s) ∧
  login_sessions (cleanup_round timeout interval w).2 !! session_id = Some s.
Proof.
  intros Hs Hm. split; [|split].
  - intros request Hf Hc Hne. eexists. split.
    + eapply check_current_user_live; eauto. unfold lapsed. by rewrite Hm.
    + cbn. apply lookup_insert_eq.
  - intros request. by eapply check_current_user_keeps_privileged.
  - by apply cleanup_round_keeps_privileged.
Qed.

Lemma privileged_session_never_expires_witness :
  (∃ w', check_current_user 1800 (with_cookie "A") world0 = (Normal "u-alice", w') ∧
         login_sessions w' !! "A" = Some (refresh_last_active 20000 session_A)) ∧
  (∃ s', login_sessions (check_current_user 1800 (with_cookie "B") world0).2 !! "A" = Some s' ∧
         is_main_user s' = true ∧ user_id s' = "u-alice") ∧
  login_sessions (cleanup_round 1800 600 world0).2 !! "A" = Some session_A.
Proof.
  destruct (privileged_session_never_expires 1800 600 world0 "A" session_A eq_refl eq_refl)
    as (Hresolve & Hkeep & Hsweep).
  split; [|split].
  - apply (Hresolve (with_cookie "A")); [reflexivity | reflexivity | discriminate].
  - apply (Hkeep (with_cookie "B")).
  - exact Hsweep.
Defined.

(** ** Sessions created by login *)

Lemma same_store_trans w1 w2 w3 : same_store w1 w2 → same_store w2 w3 → same_store w1 w3.
Proof. unfold same_store. intros (-> & -> & ->) (-> & -> & ->). done. Qed.

Lemma get_id_from_email_spec address w :
  ∃ v w', get_id_from_email address w = (Normal v, w') ∧ same_store w w' ∧
          (v = "" ∨ ∃ a, accounts w !! v = Some a ∧ email a = address).
Proof.
  unfold get_id_from_email. unfold_db. storage_step.
  - destruct (head _) as [[i a]|] eqn:Hh; cbn.
    + eexists _, _. split; [done|]. split; [done|]. right.
      apply head_Some_elem_of, list_elem_of_filter in Hh as [He Hin].
      apply elem_of_map_to_list in Hin. eauto.
    + eexists _, _. split; [done|]. split; [done|]. by left.
  - storage_step; eexists _, _; (split; [done|]); (split; [done|]); by left.
Qed.

Lemma get_one_account_spec account_id w :
  ∃ d w', get_one_account account_id w = (Normal d, w') ∧ same_store w w' ∧
          (d = ∅ ∨ ∃ a, accounts w !! account_id = Some a ∧
                        d = serialize_account account_id a).
Proof.
  unfold get_one_account. unfold_db. storage_step.
  - destruct (accounts w !! account_id) as [a|] eqn:Ha; cbn;
      eexists _, _; (split; [done|]); (split; [done|]); eauto.
  - storage_step; eexists _, _; (split; [done|]); (split; [done|]); by left.
Qed.

Lemma get_hashed_password_spec account_id w :
  ∃ h w', get_hashed_password account_id w = (Normal h, w') ∧ same_store w w'.
Proof.
  unfold get_hashed_password, get_hashed_password_block. unfold_db. storage_step.
  - destruct (accounts w !! account_id) as [a|] eqn:Ha; cbn;
      eexists _, _; (split; [done|]); done.
  - storage_step; eexists _, _; (split; [done|]); done.
Qed.

Lemma create_session_spec session_data w :
  (create_session session_data w).1 = Normal true →
  login_sessions (create_session session_data w).2 !! new_xid session_data =
  Some {| user_id := new_user_id session_data;
          last_active := clock w;
          is_main_user := new_is_main_user session_data |}.
Proof.
  unfold create_session, session_add. unfold_db.
  destruct (login_sessions w !! new_xid session_data) eqn:Hx; cbn.
  - by storage_step.
  - storage_step; [|done]. intros _. apply lookup_insert_eq.
Qed.

Lemma serialize_account_role account_id a :
  serialize_account account_id a !! "role" = Some (VRole (role a)).
Proof. reflexivity. Qed.

Lemma login_success_session verify_password login_data response w body response' w' :
  login verify_password login_data (response, w) = (Normal body, (response', w')) →
  ∃ new_xid account_id a row,
    accounts w !! account_id = Some a ∧
    body = LoginBody "Login successful" new_xid (serialize_account account_id a) ∧
    response' = set_cookie_header (SetCookie "session_id" new_xid) response ∧
    login_sessions w' !! new_xid = Some row ∧
    user_id row = account_id ∧
    is_main_user row = bool_decide (role a = MAIN).
Proof.
  unfold login. destruct (_ || _); [done|].
  destruct (get_id_from_email_spec (default "" (login_email login_data)) w)
    as (i & w1 & Hid & (Hacc1 & _ & _) & Hi).
  unfold mbind at 1, M_bind at 1. erewrite db_run by exact Hid. cbv beta iota.
  case_bool_decide as Hne; [done|]. destruct Hi as [?|(a0 & Ha0 & _)]; [done|].
  destruct (get_one_account_spec i w1) as (d & w2 & Hone & (Hacc2 & _ & _) & Hd).
  unfold mbind at 1, M_bind at 1. erewrite db_run by exact Hone. cbv beta iota.
  case_bool_decide as Hd'; [done|]. destruct Hd as [?|(a & Ha & ->)]; [done|].
  rewrite Hacc1 in Ha.
  destruct (get_hashed_password_spec i w2) as (h & w3 & Hpw & _).
  unfold mbind at 1, M_bind at 1. erewrite db_run by exact Hpw. cbv beta iota.
  destruct (verify_password _ h); [|done]. cbn [negb].
  unfold mbind at 1, M_bind at 1. unfold random_xid at 1.
  unfold db at 1, mbind at 1 2, M_bind at 1 2, gets, modify, mret, M_ret. cbn [fst snd].
  unfold mbind at 1, M_bind at 1, getitem. rewrite serialize_account_role.
  unfold mret at 1, M_ret at 1.
  unfold mbind at 1, M_bind at 1.
  unfold db at 1. cbn [fst snd].
  match goal with |- context [create_session ?d ?w] =>
    pose proof (create_session_spec d w) as Hrow;
    destruct (create_session d w) as [o w4] eqn:Hc end.
  destruct o as [[]|e]; [|done..]. cbn [negb].
  unfold mbind, M_bind, set_cookie, mret, M_ret. cbn [fst snd].
  intros [= <- <- <-].
  eexists _, i, a, _. split; [done|]. split; [done|]. split; [done|].
  split; [by apply Hrow|]. split; [done|].
  cbn. by destruct (role a).
Qed.

Section IgnoresAccounts.
Context {A B : Type}.

Lemma ignores_ret (a : A) : ignores_accounts (mret a).
Proof. done. Qed.

Lemma ignores_bind (m : Db A) (k : A → Db B) :
  ignores_accounts m → (∀ a, ignores_accounts (k a)) → ignores_accounts (m ≫= k).
Proof.
  intros Hm Hk t w. unfold mbind, M_bind. rewrite Hm.
  destruct (m w) as [[a|e] w1]; cbn; [apply Hk|done].
Qed.

Lemma ignores_gets (f : World → A) :
  (∀ t w, f (set_accounts t w) = f w) → ignores_accounts (gets f).
Proof. intros Hf t w. unfold gets. cbn. by rewrite Hf. Qed.

Lemma ignores_modify (f : World → World) :
  (∀ t w, f (set_accounts t w) = set_accounts t (f w)) → ignores_accounts (modify f).
Proof. intros Hf t w. unfold modify. cbn. by rewrite Hf. Qed.

Lemma ignores_storage_call : ignores_accounts storage_call.
Proof. intros t w. unfold storage_call. cbn. by destruct (faults w) as [|[] ?]. Qed.

Lemma ignores_with_session (block : Db A) :
  ignores_accounts block → ignores_accounts (with_session block).
Proof. intros Hb t w. unfold with_session. apply (Hb t (fresh_session w)). Qed.

Lemma ignores_try_finally_return (init : A) body handler fin :
  ignores_accounts body → ignores_accounts handler → ignores_accounts fin →
  ignores_accounts (try_finally_return init body handler fin).
Proof.
  intros Hb Hh Hf t w. unfold try_finally_return, run_try. rewrite Hb.
  destruct (body w) as [[a|[]] w1]; cbn; rewrite ?Hh;
    repeat match goal with
           | |- context [handler ?w] => destruct (handler w) as [[?|?] ?]; cbn
           end;
    rewrite Hf;
    match goal with
    | |- context [fin ?w] => by destruct (fin w) as [[?|?] ?]
    end.
Qed.
End IgnoresAccounts.

Lemma ignores_session_commit : ignores_accounts session_commit.
Proof.
  unfold session_commit. apply ignores_bind; [apply ignores_storage_call|]. intros _.
  apply ignores_bind; [by apply ignores_gets|]. intros [].
  - done.
  - by apply ignores_modify.
Qed.

Lemma ignores_session_rollback : ignores_accounts session_rollback.
Proof.
  unfold session_rollback. apply ignores_bind; [apply ignores_storage_call|]. intros _.
  by apply ignores_modify.
Qed.

Lemma check_current_user_ignores_accounts timeout request :
  ignores_accounts (check_current_user timeout request).
Proof.
  unfold check_current_user. destruct (is_blank _); [apply ignores_ret|].
  apply ignores_with_session, ignores_try_finally_return.
  - unfold check_current_user_block.
    apply ignores_bind.
    { apply ignores_bind; [apply ignores_storage_call|]. intros _. by apply ignores_gets. }
    intros [obj|]; [|apply ignores_ret].
    apply ignores_bind.
    { destruct (negb _); [|apply ignores_ret].
      apply ignores_bind; [by apply ignores_gets|]. intros ?. apply ignores_ret. }
    intros [].
    + apply ignores_bind; [by apply ignores_modify|]. intros _.
      apply ignores_bind; [apply ignores_session_commit|]. intros _. apply ignores_ret.
    + apply ignores_bind; [|intros _; apply ignores_ret].
      apply ignores_bind; [apply ignores_storage_call|]. intros _.
      by apply ignores_modify.
  - apply ignores_bind; [apply ignores_session_rollback|]. intros _.
    apply ignores_bind; [by apply ignores_modify|]. intros _. apply ignores_ret.
  - apply ignores_session_commit.
Qed.

(** Resolving changes neither the owner nor the flag of a row. *)
Lemma check_current_user_keeps_flags timeout request w k s' :
  login_sessions (check_current_user timeout request w).2 !! k = Some s' →
  ∃ s, login_sessions w !! k = Some s ∧
       is_main_user s' = is_main_user s ∧ user_id s' = user_id s.
Proof.
  unfold check_current_user.
  destruct (is_blank _); [by exists s'|].
  generalize (default "" (cookies request !! "session_id")). intros k'.
  unfold check_current_user_block, session_delete. unfold_db.
  assert (Halter : ∀ now, alter (refresh_last_active now) k' (login_sessions w) !! k = Some s' →
            ∃ s, login_sessions w !! k = Some s ∧
                 is_main_user s' = is_main_user s ∧ user_id s' = user_id s).
  { intros now. rewrite lookup_alter. case_decide as Hk; [|by eauto]. subst k'.
    destruct (login_sessions w !! k) as [s|]; [|done]. intros [= <-]. by exists s. }
  assert (Hdelete : delete k' (login_sessions w) !! k = Some s' →
            ∃ s, login_sessions w !! k = Some s ∧
                 is_main_user s' = is_main_user s ∧ user_id s' = user_id s).
  { intros [_ ?]%lookup_delete_Some. by exists s'. }
  storage_step.
  - destruct (login_sessions w !! k') as [r|] eqn:Hr; cbn.
    + destruct (is_main_user r) eqn:Hmr; cbn; [|case_bool_decide; cbn];
        repeat storage_step; eauto.
    + repeat storage_step; eauto.
  - repeat storage_step; eauto.
Qed.

(** C8: the session row a successful login creates is marked privileged
    exactly when the role of the account, as stored when it logs in, is
    [Role.MAIN].  The mark is fixed there: a later [check_current_user] gives
    the same result whatever the accounts table has become, and while the row
    exists its flag is the one set at login. *)
Theorem session_privilege_fixed_at_login verify_password login_data response w
    body response' w' :
  login verify_password login_data (response, w) = (Normal body, (response', w')) →
  ∃ new_xid account_id a row,
    accounts w !! account_id = Some a ∧
    body = LoginBody "Login successful" new_xid (serialize_account account_id a) ∧
    login_sessions w' !! new_xid = Some row ∧
    user_id row = account_id ∧
    is_main_user row = bool_decide (role a = MAIN) ∧
    ∀ timeout request,
      (∀ t, check_current_user timeout request (set_accounts t w') =
            ((check_current_user timeout request w').1,
             set_accounts t (check_current_user timeout request w').2)) ∧
      (∀ row', login_sessions (check_current_user timeout request w').2 !! new_xid = Some row' →
               is_main_user row' = is_main_user row).
Proof.
  intros Hlogin.
  destruct (login_success_session _ _ _ _ _ _ _ Hlogin)
    as (x & i & a & row & Ha & Hbody & _ & Hrow & Hu & Hm).
  exists x, i, a, row. repeat (split; [done|]).
  intros timeout request. split.
  - intros t. apply check_current_user_ignores_accounts.
  - intros row' Hrow'.
    apply check_current_user_keeps_flags in Hrow' as (s & Hs & Hflag & _).
    by simplify_eq.
Qed.

Lemma session_privilege_fixed_at_login_witness :
  ∃ new_xid account_id a row,
    accounts world0 !! account_id = Some a ∧
    LoginBody "Login successful" "k3Jx0PqLm9ZtYw2B" (serialize_account "u-alice" alice) =
    LoginBody "Login successful" new_xid (serialize_account account_id a) ∧
    login_sessions alice_logs_in.2.2 !! new_xid = Some row ∧
    user_id row = account_id ∧
    is_main_user row = bool_decide (role a = MAIN) ∧
    ∀ timeout request,
      (∀ t, check_current_user timeout request (set_accounts t alice_logs_in.2.2) =
            ((check_current_user timeout request alice_logs_in.2.2).1,
             set_accounts t (check_current_user timeout request alice_logs_in.2.2).2)) ∧
      (∀ row', login_sessions (check_current_user timeout request alice_logs_in.2.2).2
                 !! new_xid = Some row' →
               is_main_user row' = is_main_user row).
Proof.
  apply (session_privilege_fixed_at_login toy_verify
           {| login_email := Some "alice@example.org"; login_password := Some "secret" |}
           no_headers world0 _ alice_logs_in.2.1 alice_logs_in.2.2).
  vm_compute. reflexivity.
Defined.

(** ** Storage faults in the cleanup loop *)

Lemma storage_call_pass w fs :
  faults w = false :: fs → storage_call w = (Normal tt, set_faults fs w).
Proof. intros Hf. unfold storage_call. by rewrite Hf. Qed.

Lemma storage_call_fault w fs :
  faults w = true :: fs → storage_call w = (Raise SQLAlchemyError, set_faults fs w).
Proof. intros Hf. unfold storage_call. by rewrite Hf. Qed.

Lemma session_commit_pass w fs :
  faults w = false :: fs → conflict w = false →
  session_commit w = (Normal tt, set_login_sessions (work w) (set_faults fs w)).
Proof.
  intros Hf Hc. unfold session_commit.
  erewrite bind_normal by by apply storage_call_pass.
  unfold mbind, M_bind, gets, modify. cbn. by rewrite Hc.
Qed.

Lemma session_rollback_pass w fs :
  faults w = false :: fs →
  session_rollback w = (Normal tt, fresh_session (set_faults fs w)).
Proof.
  intros Hf. unfold session_rollback.
  by erewrite bind_normal by by apply storage_call_pass.
Qed.

Lemma try_finally_caught {S A} (init : A) body handler (fin : A → M S unit) s s1 a s2 s3 :
  body s = (Raise SQLAlchemyError, s1) →
  handler s1 = (Normal a, s2) →
  fin a s2 = (Normal tt, s3) →
  try_finally init body handler fin s = (Normal a, s3).
Proof. intros Hb Hh Hf. unfold try_finally, run_try. by rewrite Hb, Hh, Hf. Qed.

Lemma try_finally_fin_raises {S A} (init : A) body handler (fin : A → M S unit) s a s1 e s2 :
  body s = (Normal a, s1) →
  fin a s1 = (Raise e, s2) →
  try_finally init body handler fin s = (Raise e, s2).
Proof. intros Hb Hf. unfold try_finally, run_try. by rewrite Hb, Hf. Qed.

(** A fault of the sweep's query is caught by the handler: the round logs
    the failure, leaves the table alone and the loop goes on. *)
Lemma cleanup_round_query_fault_is_caught timeout interval w fs :
  faults w = true :: false :: false :: fs →
  ∃ w', cleanup_round timeout interval w = (Normal tt, w') ∧
        login_sessions w' = login_sessions w ∧
        stdout w' = "[DB] Failed to clean up login sessions"
                    :: "[DB] Error cleaning up login sessions" :: stdout w.
Proof.
  intros Hf. unfold cleanup_round, with_session.
  eexists. split; [|split]; cycle 1.
  - shelve.
  - shelve.
  - erewrite bind_normal; [|reflexivity].
    erewrite bind_normal; [reflexivity|].
    eapply try_finally_caught.
    + erewrite bind_normal; [|reflexivity]. apply bind_raise.
      unfold query_expired_sessions. apply bind_raise.
      by apply storage_call_fault.
    + erewrite bind_normal; [|by apply session_rollback_pass].
      erewrite bind_normal; reflexivity.
    + erewrite bind_normal; [reflexivity|by apply session_commit_pass].
  Unshelve. all: done.
Qed.

(** A fault of [session.commit()], which the [finally] clause calls outside
    the reach of the handler, leaves the round as an exception and ends the
    loop, however many rounds were still to come. *)
Lemma cleanup_loop_commit_fault_escapes timeout interval rounds w fs :
  faults w = false :: true :: fs →
  ∃ w', cleanup_login_sessions timeout interval (S rounds) w = (Raise SQLAlchemyError, w') ∧
        login_sessions w' = login_sessions w ∧
        clock w' = clock w + interval ∧
        stdout w' = stdout w.
Proof.
  intros Hf. cbn [cleanup_login_sessions]. unfold cleanup_round, with_session.
  eexists. split.
  - apply bind_raise. erewrite bind_normal; [|reflexivity]. apply bind_raise.
    eapply try_finally_fin_raises.
    + erewrite bind_normal; [|reflexivity].
      erewrite bind_normal;
        [|unfold query_expired_sessions;
          erewrite bind_normal; [reflexivity|by apply storage_call_pass]].
      erewrite bind_normal; [reflexivity|apply for_each_session_delete].
    + apply bind_raise. unfold session_commit. apply bind_raise.
      by apply storage_call_fault.
  - done.
Qed.

(** C9 fails on the code: with a store whose query goes through and whose
    commit fails, three rounds of the loop are asked for and the first one
    ends the loop with [SQLAlchemyError]: the clock has advanced by one
    interval only, nothing was logged, and the expired session B is still
    there. *)
Theorem cleanup_loop_ends_on_commit_fault :
  ∃ w', cleanup_login_sessions 1800 600 3 (set_faults [false; true] world0)
        = (Raise SQLAlchemyError, w') ∧
        clock w' = clock world0 + 600 ∧
        stdout w' = [] ∧
        login_sessions w' !! "B" = Some session_B.
Proof. eexists. vm_compute. done. Qed.

(** ** Boundary cases on the example world *)

(** No cookie, or a session id that is not in the table: no identity, and
    the table is left alone. *)
Example no_cookie_no_identity :
  check_current_user 1800 {| cookies := ∅ |} world0 = (Normal "", world0).
Proof. reflexivity. Qed.

Example unknown_session_no_identity :
  (check_current_user 1800 (with_cookie "gone") world0).1 = Normal "" ∧
  login_sessions (check_current_user 1800 (with_cookie "gone") world0).2
  = login_sessions world0.
Proof. split; vm_compute; reflexivity. Qed.

(** The timeout must be exceeded strictly: idle for exactly 1800 seconds B
    still resolves, one second later it is expired. *)
Example idle_for_exactly_the_timeout :
  (check_current_user 1800 (with_cookie "B") (set_clock 11800 world0)).1 = Normal "u-bob" ∧
  (check_current_user 1800 (with_cookie "B") (set_clock 11801 world0)).1 = Normal "" ∧
  login_sessions (check_current_user 1800 (with_cookie "B") (set_clock 11801 world0)).2 !! "B"
  = None.
Proof. repeat split; vm_compute; reflexivity. Qed.

(** The sweep has the same boundary: run at 11800 its cutoff is 10000 and B,
    last active at 10000, stays; run at 11801 B goes. *)
Example sweep_at_the_cutoff :
  login_sessions (cleanup_round 1800 600 (set_clock 11200 world0)).2 !! "B" = Some session_B ∧
  login_sessions (cleanup_round 1800 600 (set_clock 11201 world0)).2 !! "B" = None.
Proof. split; vm_compute; reflexivity. Qed.

(** A successful login and the logout that follows it: one row and one
    cookie, then the row is gone and the cookie is cleared. *)
Example login_then_logout :
  ∃ w1 w2,
    alice_logs_in =
    (Normal (LoginBody "Login successful" "k3Jx0PqLm9ZtYw2B"
               (serialize_account "u-alice" alice)),
     ({| cookie_headers := [SetCookie "session_id" "k3Jx0PqLm9ZtYw2B"] |}, w1)) ∧
    login_sessions w1 =
    <["k3Jx0PqLm9ZtYw2B" := {| user_id := "u-alice"; last_active := 20000;
                               is_main_user := true |}]> (login_sessions world0) ∧
    logout (with_cookie "k3Jx0PqLm9ZtYw2B") (no_headers, w1) =
    (Normal (MessageBody "Logout successful"),
     ({| cookie_headers := [DeleteCookie "session_id"] |}, w2)) ∧
    login_sessions w2 = login_sessions world0.
Proof.
  eexists _, _. split; [vm_compute; reflexivity|].
  split; [vm_compute; reflexivity|].
  split; vm_compute; reflexivity.
Qed.

(** * Further properties *)

(** ** Creating a session *)

Lemma create_session_fresh session_data w :
  faults w = [] →
  login_sessions w !! new_xid session_data = None →
  create_session session_data w =
  (Normal true,
   set_login_sessions
     (<[new_xid session_data := inserted_row session_data (clock w)]> (login_sessions w))
     (set_stdout ("[DB] New session created" :: stdout w)
        (set_work
           (<[new_xid session_data := inserted_row session_data (clock w)]> (login_sessions w))
           (fresh_session w)))).
Proof.
  intros Hf Hx. unfold create_session, with_session.
  eapply try_finally_return_normal.
  - unfold session_add. run. rewrite Hx. reflexivity.
  - by rewrite session_commit_ok.
Qed.

(** X1: a session created with a fresh, non-empty id resolves at once to the
    user it was created for, privileged or not. *)
Theorem created_session_resolves timeout session_data w :
  faults w = [] →
  0 ≤ timeout →
  new_xid session_data ≠ "" →
  login_sessions w !! new_xid session_data = None →
  ∃ w1 w2,
    create_session session_data w = (Normal true, w1) ∧
    login_sessions w1 !! new_xid session_data
    = Some (inserted_row session_data (clock w)) ∧
    check_current_user timeout (with_cookie (new_xid session_data)) w1
    = (Normal (new_user_id session_data), w2).
Proof.
  intros Hf H0 Hne Hx.
  eexists _, _. split; [by apply create_session_fresh|].
  split; [cbn; apply lookup_insert_eq|].
  rewrite (check_current_user_live timeout _ _ (new_xid session_data)
             (inserted_row session_data (clock w))); [reflexivity|done| |done| |].
  - unfold with_cookie. cbn. apply lookup_singleton_eq.
  - cbn. apply lookup_insert_eq.
  - unfold lapsed. cbn. rewrite bool_decide_false by lia. apply andb_false_r.
Qed.

Lemma created_session_resolves_witness :
  ∃ w1 w2,
    create_session {| new_xid := "C"; new_user_id := "u-bob"; new_is_main_user := false |}
      world0 = (Normal true, w1) ∧
    login_sessions w1 !! "C" = Some {| user_id := "u-bob"; last_active := 20000;
                                       is_main_user := false |} ∧
    check_current_user 1800 (with_cookie "C") w1 = (Normal "u-bob", w2).
Proof.
  apply (created_session_resolves 1800
           {| new_xid := "C"; new_user_id := "u-bob"; new_is_main_user := false |} world0);
    [reflexivity | lia | discriminate | reflexivity].
Defined.

(** X2: deleting a session that was just created with a fresh id gives the
    sessions table back as it was before. *)
Theorem create_then_delete_session session_data w :
  faults w = [] →
  login_sessions w !! new_xid session_data = None →
  ∃ w1 w2,
    create_session session_data w = (Normal true, w1) ∧
    delete_session (new_xid session_data) w1 = (Normal true, w2) ∧
    login_sessions w2 = login_sessions w.
Proof.
  intros Hf Hx.
  eexists _, _. split; [by apply create_session_fresh|].
  split.
  - eapply delete_session_present; [done|]. cbn. apply lookup_insert_eq.
  - cbn. rewrite delete_insert_eq. by apply delete_id.
Qed.

Lemma create_then_delete_session_witness :
  ∃ w1 w2,
    create_session {| new_xid := "C"; new_user_id := "u-bob"; new_is_main_user := false |}
      world0 = (Normal true, w1) ∧
    delete_session "C" w1 = (Normal true, w2) ∧
    login_sessions w2 = login_sessions world0.
Proof.
  apply (create_then_delete_session
           {| new_xid := "C"; new_user_id := "u-bob"; new_is_main_user := false |} world0);
    reflexivity.
Defined.

(** X3: [create_session] never returns [False].  Nothing in its [try] block
    is sent to the store, so the handler is never entered: either the commit
    in the [finally] clause goes through and the result is [True], or the
    commit raises and the exception escapes, leaving the table as it was. *)
Theorem create_session_true_or_raises session_data w :
  (create_session session_data w).1 = Normal true ∨
  ((create_session session_data w).1 = Raise SQLAlchemyError ∧
   login_sessions (create_session session_data w).2 = login_sessions w).
Proof.
  unfold create_session, session_add. unfold_db.
  destruct (login_sessions w !! new_xid session_data); cbn; storage_step; auto.
Qed.

(** ** What resolving can and cannot do *)

(** X4: resolving touches no row but the one the cookie names: whatever the
    store's faults, every other session is afterwards exactly as before. *)
Theorem check_current_user_touches_one_row timeout request w k :
  cookies request !! "session_id" ≠ Some k →
  login_sessions (check_current_user timeout request w).2 !! k = login_sessions w !! k.
Proof.
  intros Hk. unfold check_current_user.
  destruct (cookies request !! "session_id") as [k'|] eqn:Hc; cbn [is_blank]; [|done].
  case_bool_decide; [done|]. cbn [default from_option id].
  assert (k' ≠ k) by congruence.
  unfold check_current_user_block, session_delete. unfold_db.
  storage_step.
  - destruct (login_sessions w !! k') as [r|] eqn:Hr; cbn.
    + destruct (is_main_user r) eqn:Hmr; cbn; [|case_bool_decide; cbn];
        repeat storage_step;
        rewrite ?lookup_alter_ne, ?lookup_delete_ne by done; done.
    + by repeat storage_step.
  - by repeat storage_step.
Qed.

Lemma check_current_user_touches_one_row_witness :
  login_sessions (check_current_user 1800 (with_cookie "B") world0).2 !! "A"
  = login_sessions world0 !! "A".
Proof.
  apply (check_current_user_touches_one_row 1800 (with_cookie "B") world0 "A").
  discriminate.
Defined.

(** X5: resolving never invents an identity.  Whatever the store's faults,
    when [check_current_user] returns a non-empty user id, the cookie names
    a session of the table that belongs to that user and that is privileged
    or within the idle timeout. *)
Theorem check_current_user_sound timeout request w u :
  (check_current_user timeout request w).1 = Normal u →
  u ≠ "" →
  ∃ session_id s,
    cookies request !! "session_id" = Some session_id ∧
    session_id ≠ "" ∧
    login_sessions w !! session_id = Some s ∧
    user_id s = u ∧
    (is_main_user s = true ∨ clock w - last_active s ≤ timeout).
Proof.
  unfold check_current_user.
  destruct (cookies request !! "session_id") as [k|] eqn:Hc; cbn [is_blank];
    [|by intros [= <-]].
  case_bool_decide as Hk; [by intros [= <-]|]. cbn [default from_option id].
  unfold check_current_user_block, session_delete. unfold_db.
  storage_step.
  - destruct (login_sessions w !! k) as [r|] eqn:Hr; cbn.
    + destruct (is_main_user r) eqn:Hmr; cbn; [|case_bool_decide as Ht; cbn];
        repeat storage_step; intros [= <-] Hu; try done;
        exists k, r; repeat (split; [done|]); [by left|right; lia].
    + repeat storage_step; by intros [= <-].
  - repeat storage_step; by intros [= <-].
Qed.

Lemma check_current_user_sound_witness :
  ∃ session_id s,
    cookies (with_cookie "A") !! "session_id" = Some session_id ∧
    session_id ≠ "" ∧
    login_sessions world0 !! session_id = Some s ∧
    user_id s = "u-alice" ∧
    (is_main_user s = true ∨ clock world0 - last_active s ≤ 1800).
Proof.
  apply (check_current_user_sound 1800 (with_cookie "A") world0 "u-alice");
    [reflexivity | discriminate].
Defined.

(** ** The cleanup loop over several rounds *)

(** One round on a store without faults, with all that the next round
    needs to know about the world it leaves. *)
Lemma cleanup_round_run timeout interval w :
  faults w = [] →
  ∃ w', cleanup_round timeout interval w = (Normal tt, w') ∧
        faults w' = [] ∧
        clock w' = clock w + interval ∧
        ∀ k, login_sessions w' !! k =
             swept (clock w + interval - timeout) (login_sessions w !! k).
Proof.
  intros Hf. unfold cleanup_round, with_session, try_finally, run_try.
  unfold mbind at 1 2 3 4, M_bind at 1 2 3 4, sleep, time, gets, modify. cbn.
  rewrite query_expired_sessions_ok by done. cbn.
  unfold mbind at 1, M_bind at 1. rewrite for_each_session_delete. cbn.
  unfold mbind at 1, M_bind at 1. rewrite session_commit_ok by done. cbn.
  eexists. split; [reflexivity|]. cbn. split; [done|]. split; [done|].
  intros k. rewrite lookup_foldl_delete. unfold swept.
  case_decide as Hin.
  - apply elem_of_expired_xids in Hin as (r & -> & ->). done.
  - destruct (login_sessions w !! k) as [r|] eqn:Hr; [|done].
    destruct (is_expired _ r) eqn:He; [|done].
    exfalso. apply Hin. apply elem_of_expired_xids. eauto.
Qed.

(** A later sweep subsumes an earlier one. *)
Lemma swept_swept c1 c2 row : c1 ≤ c2 → swept c2 (swept c1 row) = swept c2 row.
Proof.
  intros Hle. destruct row as [r|]; [|done]. cbn.
  destruct (is_expired c1 r) eqn:H1; [|done]. cbn.
  assert (is_expired c2 r = true) as ->; [|done].
  unfold is_expired in *. apply andb_true_iff in H1 as [Hlt ->].
  apply bool_decide_eq_true in Hlt. rewrite bool_decide_true by lia. done.
Qed.

(** X6: on a store without faults and with a non-negative interval, the
    cleanup loop is still running after any number of rounds, the clock has
    advanced by one interval per round, and the table holds exactly the rows
    that the cutoff of the last round does not select: rounds compose into
    one sweep at the time of the last one. *)
Theorem cleanup_loop_rounds timeout interval rounds w :
  faults w = [] →
  0 ≤ interval →
  ∃ w', cleanup_login_sessions timeout interval (S rounds) w = (Normal tt, w') ∧
        clock w' = clock w + Z.of_nat (S rounds) * interval ∧
        ∀ k, login_sessions w' !! k =
             match login_sessions w !! k with
             | Some s => if is_expired (clock w' - timeout) s then None else Some s
             | None => None
             end.
Proof.
  intros Hf Hi. revert w Hf. induction rounds as [|n IH]; intros w Hf.
  - destruct (cleanup_round_run timeout interval w Hf) as (w1 & Hrun & _ & Hclock & Hk).
    exists w1. cbn [cleanup_login_sessions].
    erewrite bind_normal by exact Hrun. split; [done|]. split; [lia|].
    intros k. rewrite Hk, Hclock. done.
  - destruct (cleanup_round_run timeout interval w Hf) as (w1 & Hrun & Hf1 & Hclock & Hk).
    destruct (IH w1 Hf1) as (w' & Hloop & Hclock' & Hk').
    exists w'. split; [|split].
    + change (cleanup_login_sessions timeout interval (S (S n)) w)
        with ((cleanup_round timeout interval ;;
               cleanup_login_sessions timeout interval (S n)) w).
      by erewrite bind_normal by exact Hrun.
    + rewrite Hclock', Hclock. lia.
    + intros k. rewrite Hk', Hk.
      change (swept (clock w' - timeout)
                (swept (clock w + interval - timeout) (login_sessions w !! k))
              = swept (clock w' - timeout) (login_sessions w !! k)).
      apply swept_swept. lia.
Qed.

Lemma cleanup_loop_rounds_witness :
  ∃ w', cleanup_login_sessions 1800 600 3 world0 = (Normal tt, w') ∧
        clock w' = clock world0 + Z.of_nat 3 * 600 ∧
        ∀ k, login_sessions w' !! k =
             match login_sessions world0 !! k with
             | Some s => if is_expired (clock w' - 1800) s then None else Some s
             | None => None
             end.
Proof.
  apply (cleanup_loop_rounds 1800 600 2 world0); [reflexivity | lia].
Defined.

(** X7: the sweep completes the lazy expiry.  On a store without faults, a
    session that [check_current_user] would remove at some second is removed
    by every round of the sweep that runs at that second or later.  (Only
    this direction is stated: [check_current_user] compares the seconds
    truncated, the sweep compares at the instant it runs, so the sweep may
    select a session a little earlier than resolving it would.) *)
Theorem sweep_removes_what_resolve_expires timeout interval w session_id s t :
  faults w = [] →
  session_id ≠ "" →
  login_sessions w !! session_id = Some s →
  t ≤ clock w + interval →
  login_sessions
    (check_current_user timeout (with_cookie session_id) (set_clock t w)).2
    !! session_id = None →
  login_sessions (cleanup_round timeout interval w).2 !! session_id = None.
Proof.
  intros Hf Hne Hs Ht Hgone.
  destruct (cleanup_round_run timeout interval w Hf) as (w1 & -> & _ & _ & Hk).
  cbn [snd]. rewrite Hk, Hs. cbn [swept].
  assert (Hc : cookies (with_cookie session_id) !! "session_id" = Some session_id)
    by apply lookup_singleton_eq.
  destruct (lapsed timeout t s) eqn:Hl.
  - assert (is_expired (clock w + interval - timeout) s = true) as ->; [|done].
    unfold lapsed in Hl. apply andb_true_iff in Hl as [Hm Hidle].
    apply bool_decide_eq_true in Hidle.
    unfold is_expired. rewrite Hm, bool_decide_true by lia. done.
  - rewrite (check_current_user_live timeout (set_clock t w) _ session_id s) in Hgone;
      [|done|exact Hc|done|exact Hs|exact Hl].
    cbn in Hgone. by rewrite lookup_insert_eq in Hgone.
Qed.

Lemma sweep_removes_what_resolve_expires_witness :
  login_sessions (cleanup_round 1800 600 world0).2 !! "B" = None.
Proof.
  apply (sweep_removes_what_resolve_expires 1800 600 world0 "B" session_B 20000);
    [reflexivity | discriminate | reflexivity | cbn; lia | vm_compute; reflexivity].
Defined.

(** X8: whatever the store's faults, a round of the sweep changes no row
    and adds none; a row it removes is one its cutoff selects. *)
Theorem cleanup_round_only_removes_expired timeout interval w k :
  login_sessions (cleanup_round timeout interval w).2 !! k = login_sessions w !! k ∨
  (login_sessions (cleanup_round timeout interval w).2 !! k = None ∧
   ∃ s, login_sessions w !! k = Some s ∧
        is_expired (clock w + interval - timeout) s = true).
Proof.
  unfold cleanup_round. unfold_db.
  storage_step.
  - rewrite for_each_session_delete. cbn.
    repeat storage_step; auto.
    rewrite lookup_foldl_delete. case_decide as Hin; [|by left].
    right. split; [done|]. by apply elem_of_expired_xids in Hin.
  - repeat storage_step; auto.
Qed.

(** ** Login, resolve, logout *)

Lemma check_current_user_unknown timeout w request session_id :
  faults w = [] →
  cookies request !! "session_id" = Some session_id →
  session_id ≠ "" →
  login_sessions w !! session_id = None →
  check_current_user timeout request w =
  (Normal "", set_login_sessions (login_sessions w) (fresh_session w)).
Proof.
  intros Hf Hc Hne Hr. unfold check_current_user, with_session.
  rewrite Hc. cbn [is_blank default]. rewrite bool_decide_false by done.
  eapply try_finally_return_normal.
  - unfold check_current_user_block.
    erewrite bind_normal; [|by apply query_login_session_ok].
    cbn. rewrite Hr. reflexivity.
  - by rewrite session_commit_ok.
Qed.

Lemma logout_present w response request session_id s :
  faults w = [] →
  cookies request !! "session_id" = Some session_id →
  session_id ≠ "" →
  login_sessions w !! session_id = Some s →
  logout request (response, w) =
  (Normal (MessageBody "Logout successful"),
   (set_cookie_header (DeleteCookie "session_id") response,
    set_login_sessions (delete session_id (login_sessions w))
      (set_work (delete session_id (login_sessions w)) (fresh_session w)))).
Proof.
  intros Hf Hc Hne Hs. unfold logout. rewrite Hc. cbn [is_blank default negb].
  rewrite bool_decide_false by done. cbn [negb].
  unfold mbind at 1 2, M_bind at 1 2.
  erewrite db_run by by eapply delete_session_present. reflexivity.
Qed.

(** X9: after a logout that succeeded the cookie no longer resolves: the
    session row is gone, [check_current_user] returns the empty user id and
    changes nothing further. *)
Theorem logout_ends_the_session timeout w response request session_id s :
  faults w = [] →
  cookies request !! "session_id" = Some session_id →
  session_id ≠ "" →
  login_sessions w !! session_id = Some s →
  ∃ w1 w2,
    logout request (response, w) =
    (Normal (MessageBody "Logout successful"),
     (set_cookie_header (DeleteCookie "session_id") response, w1)) ∧
    check_current_user timeout request w1 = (Normal "", w2) ∧
    login_sessions w2 = delete session_id (login_sessions w).
Proof.
  intros Hf Hc Hne Hs.
  eexists _, _. split; [by eapply logout_present|].
  split.
  - erewrite check_current_user_unknown; [reflexivity|done|exact Hc|done|].
    cbn. apply lookup_delete_eq.
  - reflexivity.
Qed.

Lemma logout_ends_the_session_witness :
  ∃ w1 w2,
    logout (with_cookie "B") (no_headers, world0) =
    (Normal (MessageBody "Logout successful"),
     (set_cookie_header (DeleteCookie "session_id") no_headers, w1)) ∧
    check_current_user 1800 (with_cookie "B") w1 = (Normal "", w2) ∧
    login_sessions w2 = delete "B" (login_sessions world0).
Proof.
  apply (logout_ends_the_session 1800 world0 no_headers (with_cookie "B") "B" session_B);
    [reflexivity | reflexivity | discriminate | reflexivity].
Defined.

(** The account [get_id_from_email] picks when the email is that of one
    account only. *)
Lemma only_account_with_email (t : gmap string AccountsTable) address i a :
  t !! i = Some a → email a = address →
  (∀ j b, t !! j = Some b → email b = address → j = i) →
  head (filter (λ p : string * AccountsTable, email p.2 = address) (map_to_list t))
  = Some (i, a).
Proof.
  intros Hi He Honly.
  destruct (first_account_with_email t address i a Hi He) as (j & b & -> & Hj & Hb).
  assert (j = i) as -> by eauto. by simplify_eq.
Qed.

(** X10: a login with the right password for the one account that has the
    email creates one session row, owned by that account and privileged
    exactly when its role is [MAIN], puts one [session_id] cookie on the
    response, and that cookie resolves at once to the account. *)
Theorem login_then_resolve verify_password timeout w response address input_password i a :
  faults w = [] →
  0 ≤ timeout →
  address ≠ "" → input_password ≠ "" → i ≠ "" →
  accounts w !! i = Some a → email a = address →
  (∀ j b, accounts w !! j = Some b → email b = address → j = i) →
  verify_password input_password (password a) = true →
  rand w O ≠ "" →
  login_sessions w !! rand w O = None →
  ∃ w1 w2,
    login verify_password
      {| login_email := Some address; login_password := Some input_password |}
      (response, w) =
    (Normal (LoginBody "Login successful" (rand w O) (serialize_account i a)),
     (set_cookie_header (SetCookie "session_id" (rand w O)) response, w1)) ∧
    login_sessions w1 =
    <[rand w O := {| user_id := i; last_active := clock w;
                     is_main_user := bool_decide (role a = MAIN) |}]> (login_sessions w) ∧
    check_current_user timeout (with_cookie (rand w O)) w1 = (Normal i, w2).
Proof.
  intros Hf H0 Hne Hpw Hi Ha He Honly Hv Hx Hfresh. unfold login.
  cbn [is_blank login_email login_password default from_option id].
  rewrite !bool_decide_false by done. cbn [orb].
  unfold mbind at 1, M_bind at 1.
  erewrite db_run by by apply get_id_from_email_ok.
  rewrite (only_account_with_email _ _ _ _ Ha He Honly).
  cbn [fmap option_fmap option_map default from_option id fst].
  rewrite bool_decide_false by done.
  unfold mbind at 1, M_bind at 1.
  erewrite db_run by by apply get_one_account_ok.
  cbn [accounts fresh_session set_conflict set_work]. rewrite Ha.
  rewrite bool_decide_false by apply serialize_account_non_empty.
  unfold mbind at 1, M_bind at 1.
  erewrite db_run by by apply get_hashed_password_ok.
  cbv beta iota. rewrite Hv. cbn [negb].
  unfold mbind at 1, M_bind at 1. unfold random_xid at 1.
  unfold db at 1, mbind at 1 2, M_bind at 1 2, gets, modify, mret, M_ret. cbn [fst snd].
  unfold mbind at 1, M_bind at 1, getitem. rewrite serialize_account_role.
  unfold mret at 1, M_ret at 1.
  unfold mbind at 1, M_bind at 1.
  erewrite db_run by by apply create_session_fresh.
  cbv beta iota. cbn [negb].
  unfold mbind, M_bind, set_cookie, mret, M_ret. cbn [fst snd].
  assert (Hflag : match role a with MAIN => true | _ => false end
                  = bool_decide (role a = MAIN)) by by destruct (role a).
  eexists _, _. split; [reflexivity|]. split.
  - cbn. unfold inserted_row. cbn. by rewrite Hflag.
  - rewrite (check_current_user_live timeout _ _ (rand w O)
               {| user_id := i; last_active := clock w;
                  is_main_user := bool_decide (role a = MAIN) |});
      [reflexivity|done| |done| |].
    + apply lookup_singleton_eq.
    + cbn. unfold inserted_row. cbn. rewrite Hflag. apply lookup_insert_eq.
    + unfold lapsed. cbn. rewrite (bool_decide_false (_ > _)) by lia.
      apply andb_false_r.
Qed.

Lemma login_then_resolve_witness :
  ∃ w1 w2,
    login toy_verify
      {| login_email := Some "bob@example.org"; login_password := Some "hunter2" |}
      (no_headers, world0) =
    (Normal (LoginBody "Login successful" (rand world0 O) (serialize_account "u-bob" bob)),
     (set_cookie_header (SetCookie "session_id" (rand world0 O)) no_headers, w1)) ∧
    login_sessions w1 =
    <[rand world0 O := {| user_id := "u-bob"; last_active := clock world0;
                          is_main_user := bool_decide (role bob = MAIN) |}]>
      (login_sessions world0) ∧
    check_current_user 1800 (with_cookie (rand world0 O)) w1 = (Normal "u-bob", w2).
Proof.
  apply (login_then_resolve toy_verify 1800 world0 no_headers
           "bob@example.org" "hunter2" "u-bob" bob);
    try first [reflexivity | discriminate | lia].
  intros j b Hj Hb. unfold world0 in Hj. cbn in Hj.
  apply lookup_insert_Some in Hj as [[<- <-]|[_ Hj]]; [discriminate Hb|].
  by apply lookup_singleton_Some in Hj as [<- <-].
Defined.

(** X11: a login with an email that no account has is answered exactly as a
    login with a wrong password is: 401 "Invalid email or password", no
    cookie and no change to the sessions table. *)
Theorem login_unknown_email verify_password w response address input_password :
  faults w = [] →
  address ≠ "" → input_password ≠ "" →
  (∀ i a, accounts w !! i = Some a → email a ≠ address) →
  ∃ w',
    login verify_password
      {| login_email := Some address; login_password := Some input_password |}
      (response, w) =
    (Raise (HTTPException 401 "unauthorized" "Invalid email or password"),
     (response, w')) ∧
    login_sessions w' = login_sessions w.
Proof.
  intros Hf Hne Hpw Hnone. unfold login.
  cbn [is_blank login_email login_password default from_option id].
  rewrite !bool_decide_false by done. cbn [orb].
  unfold mbind at 1, M_bind at 1.
  erewrite db_run by by apply get_id_from_email_ok.
  destruct (head _) as [[i a]|] eqn:Hh.
  - apply head_Some_elem_of, list_elem_of_filter in Hh as [He Hin].
    apply elem_of_map_to_list in Hin. by destruct (Hnone i a Hin).
  - cbn. by eexists.
Qed.

Lemma login_unknown_email_witness :
  ∃ w',
    login toy_verify
      {| login_email := Some "carol@example.org"; login_password := Some "secret" |}
      (no_headers, world0) =
    (Raise (HTTPException 401 "unauthorized" "Invalid email or password"),
     (no_headers, w')) ∧
    login_sessions w' = login_sessions world0.
Proof.
  apply (login_unknown_email toy_verify world0 no_headers "carol@example.org" "secret");
    try first [reflexivity | discriminate].
  intros i a Hi. unfold world0 in Hi. cbn in Hi.
  apply lookup_insert_Some in Hi as [[<- <-]|[_ Hi]]; [discriminate|].
  apply lookup_singleton_Some in Hi as [<- <-]. discriminate.
Defined.

(** ** Reading accounts and families *)

(** X12: [get_one_account] always returns, whatever the store's faults, and
    the dictionary it returns never has a ["password"] entry; when it is not
    empty it is the serialised row of that account. *)
Theorem get_one_account_hides_password account_id w :
  ∃ d, (get_one_account account_id w).1 = Normal d ∧
       d !! "password" = None ∧
       (d ≠ ∅ → ∃ a, accounts w !! account_id = Some a ∧
                     d = serialize_account account_id a ∧
                     d !! "id" = Some (VStr account_id) ∧
                     d !! "role" = Some (VRole (role a))).
Proof.
  destruct (get_one_account_spec account_id w) as (d & w' & Hrun & _ & Hd).
  exists d. rewrite Hrun. split; [done|].
  destruct Hd as [->|(a & Ha & ->)].
  - split; [apply lookup_empty|done].
  - split; [reflexivity|]. intros _. exists a. repeat split; done.
Qed.

Lemma get_one_account_hides_password_witness :
  ∃ d, (get_one_account "u-bob" world0).1 = Normal d ∧
       d !! "password" = None ∧
       d !! "role" = Some (VRole SUB).
Proof.
  destruct (get_one_account_hides_password "u-bob" world0) as (d & Hd & Hp & Hfound).
  exists d. split; [exact Hd|]. split; [exact Hp|].
  destruct Hfound as (a & Ha & _ & _ & Hr).
  - intros ->. vm_compute in Hd. discriminate Hd.
  - rewrite Hr. vm_compute in Ha. by injection Ha as <-.
Defined.

Lemma get_all_email_ok w :
  faults w = [] →
  get_all_email w =
  (Normal ((λ data : string * AccountsTable, {[ "email" := VStr (email data.2) ]})
             <$> map_to_list (accounts w)), fresh_session w).
Proof.
  intros Hf. unfold get_all_email, with_session.
  eapply try_finally_return_normal; [|reflexivity].
  unfold query_all_accounts.
  erewrite bind_normal; [|erewrite bind_normal; [reflexivity|by apply storage_call_ok]].
  reflexivity.
Qed.

Lemma item_singleton {S} key v (s : S) : item {[ key := v ]} key s = (Normal v, s).
Proof. unfold item. by rewrite lookup_singleton_eq. Qed.

Lemma comprehension_emails {S} (l : list (string * AccountsTable)) (s : S) :
  comprehension ((λ data : string * AccountsTable, {[ "email" := VStr (email data.2) ]}) <$> l)
    (λ data, item data "email") s
  = (Normal ((λ data : string * AccountsTable, VStr (email data.2)) <$> l), s).
Proof.
  induction l as [|p l IH]; [done|].
  cbn [fmap list_fmap comprehension].
  erewrite bind_normal by apply item_singleton.
  change (list_fmap _ _ ?f l) with (f <$> l).
  by erewrite bind_normal by apply IH.
Qed.

Lemma elem_of_emails (t : gmap string AccountsTable) e :
  VStr e ∈ (λ data : string * AccountsTable, VStr (email data.2)) <$> map_to_list t
  ↔ ∃ i a, t !! i = Some a ∧ email a = e.
Proof.
  rewrite list_elem_of_fmap. split.
  - intros ([i a] & [= ->] & Hin). apply elem_of_map_to_list in Hin. eauto.
  - intros (i & a & Hi & <-). exists (i, a). split; [done|].
    by apply elem_of_map_to_list.
Qed.

Lemma check_email_run w e :
  faults w = [] →
  e ≠ "" →
  Main.check_email (Some e) w =
  ((if bool_decide (VStr e ∈ (λ data : string * AccountsTable, VStr (email data.2))
                             <$> map_to_list (accounts w))
    then Raise (HTTPException 409 "already exists" "Email is already in use")
    else Normal (AccountsMessage "Email is available")),
   fresh_session w).
Proof.
  intros Hf He. unfold Main.check_email.
  erewrite bind_normal by by apply get_all_email_ok.
  erewrite bind_normal by apply comprehension_emails.
  cbn [is_blank default from_option id]. rewrite bool_decide_false by done.
  by case_bool_decide.
Qed.

(** X13: on a store without faults [check_email] answers a non-empty email
    with 409 "Email is already in use" exactly when some account has that
    email, and with "Email is available" otherwise; it changes no table. *)
Theorem check_email_decides w e :
  faults w = [] →
  e ≠ "" →
  ((∃ i a, accounts w !! i = Some a ∧ email a = e) →
   (Main.check_email (Some e) w).1
   = Raise (HTTPException 409 "already exists" "Email is already in use")) ∧
  ((∀ i a, accounts w !! i = Some a → email a ≠ e) →
   (Main.check_email (Some e) w).1 = Normal (AccountsMessage "Email is available")) ∧
  accounts (Main.check_email (Some e) w).2 = accounts w.
Proof.
  intros Hf He. rewrite check_email_run by done. cbn [fst snd].
  split; [|split; [|done]].
  - intros Hex. rewrite bool_decide_true; [done|]. by apply elem_of_emails.
  - intros Hnone. rewrite bool_decide_false; [done|].
    intros (i & a & Hi & Ha)%elem_of_emails. by destruct (Hnone i a Hi).
Qed.

Lemma check_email_decides_witness :
  (Main.check_email (Some "bob@example.org") world0).1
  = Raise (HTTPException 409 "already exists" "Email is already in use") ∧
  (Main.check_email (Some "carol@example.org") world0).1
  = Normal (AccountsMessage "Email is available").
Proof.
  split.
  - apply (check_email_decides world0 "bob@example.org"); [reflexivity|discriminate|].
    exists "u-bob", bob. split; reflexivity.
  - apply (check_email_decides world0 "carol@example.org"); [reflexivity|discriminate|].
    intros i a Hi. unfold world0 in Hi. cbn in Hi.
    apply lookup_insert_Some in Hi as [[<- <-]|[_ Hi]]; [discriminate|].
    apply lookup_singleton_Some in Hi as [<- <-]. discriminate.
Defined.

(** X14: when the store fails the query, the routes that read answer as if
    the accounts table were empty, whatever it holds: [check_email] says the
    email is available, [get_account] says 404 and [get_all_accounts] says
    that there are no accounts. *)
Theorem read_routes_on_a_failed_query w fs e account_id :
  faults w = true :: fs →
  e ≠ "" →
  (Main.check_email (Some e) w).1 = Normal (AccountsMessage "Email is available") ∧
  (Main.get_account account_id w).1
  = Raise (HTTPException 404 "not found" "Account not found") ∧
  (Main.get_all_accounts w).1 = Normal (AccountsMany "No accounts found" []).
Proof.
  intros Hf He. split; [|split].
  - unfold Main.check_email, get_all_email, query_all_accounts. unfold_db.
    rewrite (storage_call_fault _ fs) by done. cbn.
    storage_step; cbn; by rewrite bool_decide_false by done.
  - unfold Main.get_account, get_one_account. unfold_db.
    rewrite (storage_call_fault _ fs) by done. cbn.
    by storage_step.
  - unfold Main.get_all_accounts, get_all_accounts, query_all_accounts. unfold_db.
    rewrite (storage_call_fault _ fs) by done. cbn.
    by storage_step.
Qed.

Lemma read_routes_on_a_failed_query_witness :
  (Main.check_email (Some "bob@example.org") (set_faults [true] world0)).1
  = Normal (AccountsMessage "Email is available") ∧
  (Main.get_account "u-bob" (set_faults [true] world0)).1
  = Raise (HTTPException 404 "not found" "Account not found") ∧
  (Main.get_all_accounts (set_faults [true] world0)).1
  = Normal (AccountsMany "No accounts found" []).
Proof.
  apply (read_routes_on_a_failed_query (set_faults [true] world0) [] "bob@example.org" "u-bob");
    [reflexivity | discriminate].
Defined.

Lemma get_one_family_ok w family_id f :
  faults w = [] →
  families w !! family_id = Some f →
  get_one_family family_id w = (Normal (serialize_family family_id f), fresh_session w).
Proof.
  intros Hf Hfam. unfold get_one_family, with_session.
  eapply try_finally_return_normal; [|reflexivity].
  unfold get_one_family_block.
  erewrite bind_normal; [|by apply query_family_ok].
  cbn. by rewrite Hfam.
Qed.

Lemma main_id_to_family_id_ok w main_id :
  faults w = [] →
  main_id_to_family_id main_id w =
  (Normal (default "" (fst <$> head (filter (λ p : string * FamiliesTable, main_user p.2 = main_id)
                                            (map_to_list (families w))))),
   fresh_session w).
Proof.
  intros Hf. unfold main_id_to_family_id, with_session.
  eapply try_finally_return_normal; [|reflexivity].
  unfold query_family_id_by_main.
  erewrite bind_normal; [|erewrite bind_normal; [reflexivity|by apply storage_call_ok]].
  cbn. by destruct (head _).
Qed.

(** X15: on a store without faults [main_id_to_family_id] returns the id of
    a family whose main user is the one asked for, and [get_one_family] on
    that id gives that family back; when no family has that main user it
    returns the empty string. *)
Theorem main_id_to_family_id_finds_family w main_id :
  faults w = [] →
  ∃ family_id w1,
    main_id_to_family_id main_id w = (Normal family_id, w1) ∧
    ((∀ i f, families w !! i = Some f → main_user f ≠ main_id) → family_id = "") ∧
    ((∃ i f, families w !! i = Some f ∧ main_user f = main_id) →
     ∃ f, families w !! family_id = Some f ∧ main_user f = main_id ∧
          (get_one_family family_id w1).1 = Normal (serialize_family family_id f)).
Proof.
  intros Hf. eexists _, _. split; [by apply main_id_to_family_id_ok|].
  destruct (head _) as [[i f]|] eqn:Hh; cbn.
  - apply head_Some_elem_of, list_elem_of_filter in Hh as [Hm Hin].
    apply elem_of_map_to_list in Hin. split.
    + intros Hnone. by destruct (Hnone i f Hin).
    + intros _. exists f. split; [done|]. split; [done|].
      by erewrite get_one_family_ok.
  - split; [done|]. intros (i & f & Hi & Hm). exfalso.
    apply head_None in Hh.
    assert (Hin : (i, f) ∈ filter (λ p : string * FamiliesTable, main_user p.2 = main_id)
                                  (map_to_list (families w))).
    { apply list_elem_of_filter. split; [done|]. by apply elem_of_map_to_list. }
    rewrite Hh in Hin. by apply elem_of_nil in Hin.
Qed.

Lemma main_id_to_family_id_finds_family_witness :
  ∃ family_id w1,
    main_id_to_family_id "u-alice" world1 = (Normal family_id, w1) ∧
    ((∀ i f, families world1 !! i = Some f → main_user f ≠ "u-alice") → family_id = "") ∧
    ((∃ i f, families world1 !! i = Some f ∧ main_user f = "u-alice") →
     ∃ f, families world1 !! family_id = Some f ∧ main_user f = "u-alice" ∧
          (get_one_family family_id w1).1 = Normal (serialize_family family_id f)).
Proof.
  apply (main_id_to_family_id_finds_family world1 "u-alice"). reflexivity.
Defined.

Lemma get_login_session_ok w session_id :
  faults w = [] →
  get_login_session session_id w =
  (Normal (match login_sessions w !! session_id with
           | Some r => serialize_login_session {| xid := session_id; columns := r |}
           | None => ∅
           end), fresh_session w).
Proof.
  intros Hf. unfold get_login_session, with_session.
  eapply try_finally_return_normal; [|reflexivity].
  erewrite bind_normal; [|by apply query_login_session_ok].
  cbn. by destruct (login_sessions w !! session_id).
Qed.

Lemma get_login_session_returns session_id w :
  ∃ d, (get_login_session session_id w).1 = Normal d ∧
       login_sessions (get_login_session session_id w).2 = login_sessions w.
Proof.
  unfold get_login_session. unfold_db. storage_step.
  - destruct (login_sessions w !! session_id) as [r|]; cbn; by eexists.
  - storage_step; by eexists.
Qed.

(** X16: [get_login_session] only looks: whatever the store's faults it
    returns, and it leaves the sessions table as it is, [last_active]
    included; on a store without faults the dictionary is the serialised
    row, or empty when there is no such session. *)
Theorem get_login_session_only_reads session_id w :
  ∃ d, (get_login_session session_id w).1 = Normal d ∧
       login_sessions (get_login_session session_id w).2 = login_sessions w ∧
       (faults w = [] →
        d = match login_sessions w !! session_id with
            | Some r => serialize_login_session {| xid := session_id; columns := r |}
            | None => ∅
            end).
Proof.
  destruct (get_login_session_returns session_id w) as (d & Hd & Hsame).
  exists d. split; [done|]. split; [done|].
  intros Hf. rewrite get_login_session_ok in Hd by done. by injection Hd.
Qed.

Lemma get_login_session_only_reads_witness :
  ∃ d, (get_login_session "B" world0).1 = Normal d ∧
       login_sessions (get_login_session "B" world0).2 = login_sessions world0 ∧
       d = serialize_login_session {| xid := "B"; columns := session_B |}.
Proof.
  destruct (get_login_session_only_reads "B" world0) as (d & Hd & Hsame & Hrow).
  exists d. split; [exact Hd|]. split; [exact Hsame|]. by apply Hrow.
Defined.

(** ** Writing to the accounts table *)

Lemma in_world_run {A} (m : Db A) s o w' :
  m (world s) = (o, w') → in_world m s = (o, set_world w' s).
Proof. intros H. unfold in_world. by rewrite H. Qed.

Lemma set_world_id s : set_world (world s) s = s.
Proof. by destruct s. Qed.

Section FaultFreeStore.
Variable s : Store.
Hypothesis no_faults : faults (world s) = [].

Lemma store_storage_call_ok : in_world storage_call s = (Normal tt, s).
Proof.
  erewrite in_world_run by by apply storage_call_ok. by rewrite set_world_id.
Qed.

Lemma store_commit_ok :
  clash s = false → conflict (world s) = false →
  store_commit s = (Normal tt, flush s).
Proof.
  intros Hc Hk. unfold store_commit.
  erewrite bind_normal by apply store_storage_call_ok.
  unfold mbind, M_bind, gets_store, modify_store. by rewrite Hc, Hk.
Qed.

Lemma query_account_object_ok account_id :
  query_account_object account_id s = (Normal (account_work s !! account_id), s).
Proof.
  unfold query_account_object. by erewrite bind_normal by apply store_storage_call_ok.
Qed.

Lemma query_family_object_ok family_id :
  query_family_object family_id s = (Normal (family_work s !! family_id), s).
Proof.
  unfold query_family_object. by erewrite bind_normal by apply store_storage_call_ok.
Qed.
End FaultFreeStore.

(** An assignment to the attributes of an account that exists, committed. *)
Lemma assign_and_commit (f : AccountsTable → AccountsTable) handler account_id a s :
  faults (world s) = [] →
  accounts (world s) !! account_id = Some a →
  with_store_session
    (try_finally_return false
       (previous_account ← query_account_object account_id ;
        match previous_account with
        | Some _ => assign_account account_id f ;; mret true
        | None => mret false
        end)
       handler
       store_commit) s =
  (Normal true,
   flush (set_account_work (<[account_id := f a]> (accounts (world s))) (open_session s))).
Proof.
  intros Hf Ha. unfold with_store_session.
  assert (Halter : alter f account_id (accounts (world s))
                   = <[account_id := f a]> (accounts (world s))).
  { apply map_eq. intros k. rewrite lookup_alter, lookup_insert.
    repeat case_decide; simplify_eq; by rewrite ?Ha. }
  rewrite <- Halter.
  eapply try_finally_return_normal.
  - erewrite bind_normal by by apply query_account_object_ok.
    cbn. rewrite Ha. reflexivity.
  - by rewrite store_commit_ok.
Qed.

Lemma query_and_commit_absent (f : AccountsTable → AccountsTable) handler account_id s :
  faults (world s) = [] →
  accounts (world s) !! account_id = None →
  with_store_session
    (try_finally_return false
       (previous_account ← query_account_object account_id ;
        match previous_account with
        | Some _ => assign_account account_id f ;; mret true
        | None => mret false
        end)
       handler
       store_commit) s =
  (Normal false, flush (open_session s)).
Proof.
  intros Hf Ha. unfold with_store_session.
  eapply try_finally_return_normal.
  - erewrite bind_normal by by apply query_account_object_ok.
    cbn. rewrite Ha. reflexivity.
  - by rewrite store_commit_ok.
Qed.

Lemma get_hashed_password_after w account_id a :
  faults w = [] → accounts w !! account_id = Some a →
  (get_hashed_password account_id w).1 = Normal (password a).
Proof. intros Hf Ha. by erewrite get_hashed_password_ok. Qed.

(** X17: on a store without faults [change_password] on an account that
    exists returns [True] and stores the new hash, which
    [get_hashed_password] then returns; the account's other attributes, the
    other accounts and the sessions table, so also the open sessions of that
    account, stay as they were.  On an account that does not exist it
    returns [False] and changes nothing. *)
Theorem change_password_stores_hash user_id new_hash s :
  faults (world s) = [] →
  ∃ s1,
    login_sessions (world s1) = login_sessions (world s) ∧
    match accounts (world s) !! user_id with
    | Some a =>
        change_password user_id new_hash s = (Normal true, s1) ∧
        accounts (world s1) = <[user_id := with_password new_hash a]> (accounts (world s)) ∧
        (get_hashed_password user_id (world s1)).1 = Normal new_hash
    | None =>
        change_password user_id new_hash s = (Normal false, s1) ∧
        accounts (world s1) = accounts (world s)
    end.
Proof.
  intros Hf. destruct (accounts (world s) !! user_id) as [a|] eqn:Ha.
  - eexists. split; [|split; [by eapply assign_and_commit|split]].
    + reflexivity.
    + reflexivity.
    + eapply (get_hashed_password_after _ _ (with_password new_hash a)); [done|].
      cbn. apply lookup_insert_eq.
  - eexists. split; [|split; [by eapply query_and_commit_absent|]]; reflexivity.
Qed.

Lemma change_password_stores_hash_witness :
  ∃ s1,
    login_sessions (world s1) = login_sessions (world store0) ∧
    match accounts (world store0) !! "u-bob" with
    | Some a =>
        change_password "u-bob" "hash:new" store0 = (Normal true, s1) ∧
        accounts (world s1) = <["u-bob" := with_password "hash:new" a]> (accounts (world store0)) ∧
        (get_hashed_password "u-bob" (world s1)).1 = Normal "hash:new"
    | None =>
        change_password "u-bob" "hash:new" store0 = (Normal false, s1) ∧
        accounts (world s1) = accounts (world store0)
    end.
Proof.
  apply (change_password_stores_hash "u-bob" "hash:new" store0). reflexivity.
Defined.

(** ** The change-password route *)

Lemma get_one_account_in_store account_id s :
  faults (world s) = [] →
  in_world (get_one_account account_id) s =
  (Normal (match accounts (world s) !! account_id with
           | Some a => serialize_account account_id a
           | None => ∅
           end), set_world (fresh_session (world s)) s).
Proof. intros Hf. by erewrite in_world_run by by apply get_one_account_ok. Qed.

Lemma item_role {S} account_id a (s : S) :
  item (serialize_account account_id a) "role" s = (Normal (VRole (role a)), s).
Proof. unfold item. by rewrite serialize_account_role. Qed.

(** X18: who may not change a password.  Whatever the store's faults, when
    the requester is not an account, or is an account that is not [SYSTEM]
    and asks for another user than itself, the route raises 422 or 403 and
    the accounts table stays as it was. *)
Theorem change_password_needs_permission verify_password hash_password
    change_password_data request_id s :
  match accounts (world s) !! request_id with
  | None => True
  | Some a => role a ≠ SYSTEM ∧ cp_user_id change_password_data ≠ Some request_id
  end →
  ∃ e,
    (Routers.change_password verify_password hash_password change_password_data
       request_id s).1 = Raise e ∧
    (e = HTTPException 422 "no data" "Change password data is required" ∨
     e = HTTPException 403 "can not access" "You do not have permission") ∧
    accounts (world (Routers.change_password verify_password hash_password
                       change_password_data request_id s).2)
    = accounts (world s).
Proof.
  intros Hreq. unfold Routers.change_password.
  case_bool_decide as Hmissing; [eexists; split; [done|]; split; [by left|done]|].
  destruct (cp_user_id change_password_data) as [t|] eqn:Ht; cbn [is_blank] in Hmissing;
    [|exfalso; apply Hmissing;
      destruct (is_blank (cp_current_password _)), (is_blank (cp_new_password _));
      cbn; lia].
  destruct (get_one_account_spec request_id (world s))
    as (d & w1 & Hrun & (Hacc & _ & _) & Hd).
  erewrite bind_normal by by apply in_world_run.
  destruct Hd as [->|(a & Ha & ->)].
  - rewrite bool_decide_true by done.
    unfold mbind, M_bind, mret, M_ret, raise. cbn.
    eexists. split; [done|]. split; [by right|done].
  - rewrite bool_decide_false by apply serialize_account_non_empty.
    rewrite Ha in Hreq. destruct Hreq as [Hrole Htarget].
    erewrite bind_normal;
      [|erewrite bind_normal by apply item_role; reflexivity].
    rewrite bool_decide_true by congruence.
    rewrite bool_decide_true by (cbn; congruence).
    cbn. eexists. split; [done|]. split; [by right|done].
Qed.

Lemma change_password_needs_permission_witness :
  ∃ e,
    (Routers.change_password toy_verify toy_hash (complete "u-alice" "secret" "new")
       "u-bob" store0).1 = Raise e ∧
    (e = HTTPException 422 "no data" "Change password data is required" ∨
     e = HTTPException 403 "can not access" "You do not have permission") ∧
    accounts (world (Routers.change_password toy_verify toy_hash
                       (complete "u-alice" "secret" "new") "u-bob" store0).2)
    = accounts (world store0).
Proof.
  apply (change_password_needs_permission toy_verify toy_hash
           (complete "u-alice" "secret" "new") "u-bob" store0).
  cbn. split; discriminate.
Defined.

Lemma get_hashed_password_in_store account_id a s :
  faults (world s) = [] →
  accounts (world s) !! account_id = Some a →
  in_world (get_hashed_password account_id) s =
  (Normal (password a), set_world (fresh_session (world s)) s).
Proof. intros Hf Ha. by erewrite in_world_run by by apply get_hashed_password_ok. Qed.

(** The route up to the verification of the current password, on a store
    without faults and with permission. *)
Lemma change_password_route_run verify_password hash_password t c n request_id ra ta s :
  faults (world s) = [] →
  t ≠ "" → c ≠ "" → n ≠ "" →
  accounts (world s) !! request_id = Some ra →
  accounts (world s) !! t = Some ta →
  role ra = SYSTEM ∨ t = request_id →
  Routers.change_password verify_password hash_password (complete t c n) request_id s =
  if bool_decide (role ra ≠ SYSTEM) && negb (verify_password c (password ta)) then
    (Raise (HTTPException 401 "unauthorized" "Invalid password"),
     set_world (fresh_session (world s)) s)
  else
    (Normal (MessageBody "Password changed successfully"),
     flush (set_account_work
              (<[t := with_password (hash_password n) ta]> (accounts (world s)))
              (open_session s))).
Proof.
  intros Hf Ht Hc Hn Hra Hta Hperm. unfold Routers.change_password, complete.
  cbn [cp_user_id cp_current_password cp_new_password is_blank default from_option id].
  rewrite (bool_decide_false (t = "")), (bool_decide_false (c = "")),
    (bool_decide_false (n = "")) by done.
  cbn [app length]. rewrite (bool_decide_false (1 < 1)%nat) by lia.
  erewrite bind_normal by by apply get_one_account_in_store.
  rewrite Hra. rewrite bool_decide_false by apply serialize_account_non_empty.
  erewrite bind_normal;
    [|erewrite bind_normal by apply item_role; reflexivity].
  assert (Hallowed : bool_decide (VRole (role ra) ≠ VRole SYSTEM)
                     && bool_decide (t ≠ request_id) = false).
  { destruct Hperm as [Hsys|Hself].
    - rewrite (bool_decide_false (VRole (role ra) ≠ VRole SYSTEM)); [done|].
      rewrite Hsys. by intros ?.
    - rewrite (bool_decide_false (t ≠ request_id)) by (by intros ?).
      apply andb_false_r. }
  rewrite Hallowed.
  erewrite bind_normal by by apply get_one_account_in_store.
  cbn [world set_world accounts fresh_session set_conflict set_work]. rewrite Hta.
  rewrite bool_decide_false by apply serialize_account_non_empty.
  erewrite bind_normal by apply item_role.
  assert (Hrole : bool_decide (VRole (role ra) ≠ VRole SYSTEM) = bool_decide (role ra ≠ SYSTEM)).
  { apply bool_decide_ext. split; intros Hne ?; apply Hne; congruence. }
  rewrite Hrole.
  destruct (bool_decide (role ra ≠ SYSTEM)) eqn:Hsys; cbn [andb].
  - destruct (verify_password c (password ta)) eqn:Hv; cbn [negb].
    + erewrite bind_normal; cycle 1.
      { erewrite bind_normal by by apply (get_hashed_password_in_store t ta).
        cbv beta. rewrite Hv. reflexivity. }
      erewrite bind_normal; cycle 1.
      { by apply (assign_and_commit _ _ t ta). }
      reflexivity.
    + erewrite bind_raise; [reflexivity|].
      erewrite bind_normal by by apply (get_hashed_password_in_store t ta).
      cbv beta. rewrite Hv. reflexivity.
  - erewrite bind_normal; [|reflexivity].
    erewrite bind_normal; cycle 1.
    { by apply (assign_and_commit _ _ t ta). }
    reflexivity.
Qed.

(** X19: an account that is not [SYSTEM] cannot change its own password
    without the current one: when the current password given fails
    verification against the stored hash, the route raises 401 "Invalid
    password" and the stored hash stays. *)
Theorem change_password_wrong_current verify_password hash_password t c n a s :
  faults (world s) = [] →
  t ≠ "" → c ≠ "" → n ≠ "" →
  accounts (world s) !! t = Some a →
  role a ≠ SYSTEM →
  verify_password c (password a) = false →
  ∃ s1,
    Routers.change_password verify_password hash_password (complete t c n) t s =
    (Raise (HTTPException 401 "unauthorized" "Invalid password"), s1) ∧
    accounts (world s1) = accounts (world s).
Proof.
  intros Hf Ht Hc Hn Ha Hrole Hv.
  rewrite (change_password_route_run _ _ t c n t a a) by auto.
  rewrite bool_decide_true by done. rewrite Hv. cbn [andb negb].
  by eexists.
Qed.

Lemma change_password_wrong_current_witness :
  ∃ s1,
    Routers.change_password toy_verify toy_hash (complete "u-bob" "guess" "new") "u-bob" store0 =
    (Raise (HTTPException 401 "unauthorized" "Invalid password"), s1) ∧
    accounts (world s1) = accounts (world store0).
Proof.
  apply (change_password_wrong_current toy_verify toy_hash "u-bob" "guess" "new" bob store0);
    try first [reflexivity | discriminate].
Defined.

(** X20: who may change a password.  On a store without faults, with the
    three fields given, a [SYSTEM] account changes the password of any
    account that exists, without the current password being verified, and
    any account changes its own when the current password verifies: the
    route answers "Password changed successfully"; the password stored for
    the target is then [hash_password] of the new password, which
    [get_hashed_password] returns, the target's other attributes, the other
    accounts and the sessions table stay as they were. *)
Theorem change_password_allowed verify_password hash_password t c n request_id ra ta s :
  faults (world s) = [] →
  t ≠ "" → c ≠ "" → n ≠ "" →
  accounts (world s) !! request_id = Some ra →
  accounts (world s) !! t = Some ta →
  role ra = SYSTEM ∨ (t = request_id ∧ verify_password c (password ta) = true) →
  ∃ s1 ta',
    Routers.change_password verify_password hash_password (complete t c n) request_id s =
    (Normal (MessageBody "Password changed successfully"), s1) ∧
    accounts (world s1) !! t = Some ta' ∧
    password ta' = hash_password n ∧
    (email ta' = email ta ∧ role ta' = role ta ∧ user_name ta' = user_name ta ∧
     birth_date ta' = birth_date ta ∧ gender ta' = gender ta ∧
     address ta' = address ta) ∧
    (∀ j, j ≠ t → accounts (world s1) !! j = accounts (world s) !! j) ∧
    (get_hashed_password t (world s1)).1 = Normal (hash_password n) ∧
    login_sessions (world s1) = login_sessions (world s).
Proof.
  intros Hf Ht Hc Hn Hra Hta Hperm.
  assert (Hmay : role ra = SYSTEM ∨ t = request_id)
    by (destruct Hperm as [?|[? _]]; auto).
  rewrite (change_password_route_run _ _ t c n request_id ra ta) by done.
  assert (bool_decide (role ra ≠ SYSTEM) && negb (verify_password c (password ta)) = false)
    as ->.
  { destruct Hperm as [Hsys|[_ ->]]; [|apply andb_false_r].
    rewrite bool_decide_false; [done|]. by intros ?. }
  eexists _, (with_password (hash_password n) ta).
  split; [reflexivity|].
  split; [cbn; apply lookup_insert_eq|].
  split; [reflexivity|].
  split; [by repeat split|].
  split; [intros j Hj; cbn; by apply lookup_insert_ne|].
  split; [|reflexivity].
  eapply (get_hashed_password_after _ _ (with_password (hash_password n) ta)); [done|].
  cbn. apply lookup_insert_eq.
Qed.

Lemma change_password_allowed_witness :
  ∃ s1 ta',
    Routers.change_password toy_verify toy_hash (complete "u-alice" "unknown" "new")
      "u-root" store1 =
    (Normal (MessageBody "Password changed successfully"), s1) ∧
    accounts (world s1) !! "u-alice" = Some ta' ∧
    password ta' = "hash:new" ∧
    (email ta' = email alice ∧ role ta' = role alice ∧ user_name ta' = user_name alice ∧
     birth_date ta' = birth_date alice ∧ gender ta' = gender alice ∧
     address ta' = address alice) ∧
    (∀ j, j ≠ "u-alice" → accounts (world s1) !! j = accounts (world store1) !! j) ∧
    (get_hashed_password "u-alice" (world s1)).1 = Normal "hash:new" ∧
    login_sessions (world s1) = login_sessions (world store1).
Proof.
  apply (change_password_allowed toy_verify toy_hash "u-alice" "unknown" "new" "u-root"
           root alice store1);
    try first [reflexivity | discriminate].
  left. reflexivity.
Defined.

(** X21: without a session cookie the change-password endpoint changes
    nothing.  The dependency resolves to the empty user id without asking
    the store, and, no account having the empty id, the route raises 422 or
    403 whatever the store's faults. *)
Theorem change_password_requires_session verify_password hash_password timeout request
    change_password_data s :
  is_blank (cookies request !! "session_id") = true →
  accounts (world s) !! "" = None →
  ∃ e,
    (depends_current_user timeout request
       (Routers.change_password verify_password hash_password change_password_data) s).1
    = Raise e ∧
    (e = HTTPException 422 "no data" "Change password data is required" ∨
     e = HTTPException 403 "can not access" "You do not have permission") ∧
    accounts (world (depends_current_user timeout request
                       (Routers.change_password verify_password hash_password
                          change_password_data) s).2)
    = accounts (world s) ∧
    login_sessions (world (depends_current_user timeout request
                             (Routers.change_password verify_password hash_password
                                change_password_data) s).2)
    = login_sessions (world s).
Proof.
  intros Hblank Hnone. unfold depends_current_user.
  erewrite bind_normal; cycle 1.
  { apply in_world_run. unfold check_current_user. rewrite Hblank. reflexivity. }
  rewrite set_world_id. unfold Routers.change_password.
  case_bool_decide as Hmissing; [eexists; split; [done|]; split; [by left|done]|].
  destruct (get_one_account_spec "" (world s))
    as (d & w1 & Hrun & (Hacc & Hses & _) & Hd).
  erewrite bind_normal by by apply in_world_run.
  destruct Hd as [->|(a & Ha & ->)]; [|congruence].
  rewrite bool_decide_true by done.
  unfold mbind, M_bind, mret, M_ret, raise. cbn.
  eexists. split; [done|]. split; [by right|done].
Qed.

Lemma change_password_requires_session_witness :
  ∃ e,
    (depends_current_user 1800 {| cookies := ∅ |}
       (Routers.change_password toy_verify toy_hash (complete "u-bob" "hunter2" "new"))
       store0).1
    = Raise e ∧
    (e = HTTPException 422 "no data" "Change password data is required" ∨
     e = HTTPException 403 "can not access" "You do not have permission") ∧
    accounts (world (depends_current_user 1800 {| cookies := ∅ |}
                       (Routers.change_password toy_verify toy_hash
                          (complete "u-bob" "hunter2" "new")) store0).2)
    = accounts (world store0) ∧
    login_sessions (world (depends_current_user 1800 {| cookies := ∅ |}
                             (Routers.change_password toy_verify toy_hash
                                (complete "u-bob" "hunter2" "new")) store0).2)
    = login_sessions (world store0).
Proof.
  apply (change_password_requires_session toy_verify toy_hash 1800 {| cookies := ∅ |}
           (complete "u-bob" "hunter2" "new") store0); reflexivity.
Defined.

(** ** Updating and creating accounts and families *)

Lemma apply_account_update_twice u a :
  apply_account_update u (apply_account_update u a) = apply_account_update u a.
Proof. destruct u as [[?|] [?|] [?|] [?|] [?|] [?|]], a; reflexivity. Qed.

(** X22: on a store without faults [update_one_account] on an account that
    exists returns [True] and replaces exactly the attributes that are
    given: each attribute of the stored row is the new value when there is
    one and the old value otherwise, the password hash is never touched, and
    the other accounts and the sessions table stay as they were.  On an
    account that does not exist it returns [False] and changes nothing.
    (A new email, if given, is taken not to belong to another account.) *)
Theorem update_one_account_partial account_id u s :
  faults (world s) = [] →
  (∀ e j b, new_email u = Some e → accounts (world s) !! j = Some b →
            email b = e → j = account_id) →
  ∃ s1,
    login_sessions (world s1) = login_sessions (world s) ∧
    match accounts (world s) !! account_id with
    | Some a =>
        update_one_account account_id u s = (Normal true, s1) ∧
        ∃ a', accounts (world s1) = <[account_id := a']> (accounts (world s)) ∧
              password a' = password a ∧
              email a' = default (email a) (new_email u) ∧
              role a' = default (role a) (new_role u) ∧
              user_name a' = default (user_name a) (new_user_name u) ∧
              birth_date a' = default (birth_date a) (new_birth_date u) ∧
              gender a' = default (gender a) (new_gender u) ∧
              address a' = default (address a) (new_address u)
    | None =>
        update_one_account account_id u s = (Normal false, s1) ∧
        accounts (world s1) = accounts (world s)
    end.
Proof.
  intros Hf _. destruct (accounts (world s) !! account_id) as [a|] eqn:Ha.
  - eexists. split; [|split; [by eapply assign_and_commit|]]; [reflexivity|].
    exists (apply_account_update u a). split; [reflexivity|].
    destruct u as [[?|] [?|] [?|] [?|] [?|] [?|]], a; repeat split.
  - eexists. split; [|split; [by eapply query_and_commit_absent|]]; reflexivity.
Qed.

Lemma update_one_account_partial_witness :
  ∃ s1,
    login_sessions (world s1) = login_sessions (world store0) ∧
    match accounts (world store0) !! "u-bob" with
    | Some a =>
        update_one_account "u-bob" promote_and_move store0 = (Normal true, s1) ∧
        ∃ a', accounts (world s1) = <["u-bob" := a']> (accounts (world store0)) ∧
              password a' = password a ∧
              email a' = default (email a) (new_email promote_and_move) ∧
              role a' = default (role a) (new_role promote_and_move) ∧
              user_name a' = default (user_name a) (new_user_name promote_and_move) ∧
              birth_date a' = default (birth_date a) (new_birth_date promote_and_move) ∧
              gender a' = default (gender a) (new_gender promote_and_move) ∧
              address a' = default (address a) (new_address promote_and_move)
    | None =>
        update_one_account "u-bob" promote_and_move store0 = (Normal false, s1) ∧
        accounts (world s1) = accounts (world store0)
    end.
Proof.
  apply (update_one_account_partial "u-bob" promote_and_move store0); [reflexivity|].
  intros e j b [=].
Defined.

(** X23: on a store without faults, updating an account twice with the
    same data is the same as updating it once, and an update that gives no
    attribute changes nothing.  (A new email, if given, is taken not to
    belong to another account.) *)
Theorem update_one_account_idempotent account_id u a s :
  faults (world s) = [] →
  accounts (world s) !! account_id = Some a →
  (∀ e j b, new_email u = Some e → accounts (world s) !! j = Some b →
            email b = e → j = account_id) →
  ∃ s1 s2,
    update_one_account account_id u s = (Normal true, s1) ∧
    update_one_account account_id u s1 = (Normal true, s2) ∧
    accounts (world s2) = accounts (world s1) ∧
    (new_email u = None → new_role u = None → new_user_name u = None →
     new_birth_date u = None → new_gender u = None → new_address u = None →
     accounts (world s1) = accounts (world s)).
Proof.
  intros Hf Ha _.
  eexists _, _. split; [by eapply assign_and_commit|].
  split; [|split].
  - eapply (assign_and_commit _ _ account_id (apply_account_update u a)); [done|].
    cbn. apply lookup_insert_eq.
  - cbn. rewrite apply_account_update_twice. apply insert_insert_eq.
  - intros. cbn. unfold apply_account_update.
    destruct u; simplify_eq/=. by apply insert_id.
Qed.

Lemma update_one_account_idempotent_witness :
  ∃ s1 s2,
    update_one_account "u-bob" rename store0 = (Normal true, s1) ∧
    update_one_account "u-bob" rename s1 = (Normal true, s2) ∧
    accounts (world s2) = accounts (world s1) ∧
    (new_email rename = None → new_role rename = None → new_user_name rename = None →
     new_birth_date rename = None → new_gender rename = None → new_address rename = None →
     accounts (world s1) = accounts (world store0)).
Proof.
  apply (update_one_account_idempotent "u-bob" rename bob store0);
    [reflexivity|reflexivity|]. intros e j b [=].
Defined.

Lemma create_account_fresh account_id a s :
  faults (world s) = [] →
  accounts (world s) !! account_id = None →
  create_account account_id a s =
  (Normal true,
   flush (set_world
            (set_stdout ("[DB] New account created" :: stdout (world s))
               (fresh_session (world s)))
            (set_account_work (<[account_id := a]> (accounts (world s))) (open_session s)))).
Proof.
  intros Hf Hx. unfold create_account, with_store_session.
  eapply try_finally_return_normal.
  - unfold account_add, modify_store.
    erewrite bind_normal; [|reflexivity]. cbn [account_work open_session].
    rewrite Hx.
    erewrite bind_normal; [reflexivity|]. by apply in_world_run.
  - by rewrite store_commit_ok.
Qed.

(** X24: on a store without faults, creating an account under a fresh id
    and with an email no account has returns [True]; afterwards
    [get_one_account] returns the new account's data, [get_hashed_password]
    its hash, [check_email] answers that its email is in use, and the
    accounts that were there are unchanged. *)
Theorem create_account_then_read account_id a s :
  faults (world s) = [] →
  accounts (world s) !! account_id = None →
  email a ≠ "" →
  (∀ j b, accounts (world s) !! j = Some b → email b ≠ email a) →
  ∃ s1,
    create_account account_id a s = (Normal true, s1) ∧
    accounts (world s1) = <[account_id := a]> (accounts (world s)) ∧
    (get_one_account account_id (world s1)).1 = Normal (serialize_account account_id a) ∧
    (get_hashed_password account_id (world s1)).1 = Normal (password a) ∧
    (Main.check_email (Some (email a)) (world s1)).1
    = Raise (HTTPException 409 "already exists" "Email is already in use").
Proof.
  intros Hf Hx He _.
  eexists. split; [by apply create_account_fresh|].
  split; [reflexivity|].
  assert (Hnew : accounts (world (flush (set_world
            (set_stdout ("[DB] New account created" :: stdout (world s))
               (fresh_session (world s)))
            (set_account_work (<[account_id := a]> (accounts (world s))) (open_session s)))))
            !! account_id = Some a) by (cbn; apply lookup_insert_eq).
  split; [|split].
  - rewrite get_one_account_ok by done. by rewrite Hnew.
  - by erewrite get_hashed_password_ok.
  - rewrite check_email_run by done. cbn [fst].
    rewrite bool_decide_true; [done|]. apply elem_of_emails. eauto.
Qed.

Lemma create_account_then_read_witness :
  ∃ s1,
    create_account "u-root" root store0 = (Normal true, s1) ∧
    accounts (world s1) = <["u-root" := root]> (accounts (world store0)) ∧
    (get_one_account "u-root" (world s1)).1 = Normal (serialize_account "u-root" root) ∧
    (get_hashed_password "u-root" (world s1)).1 = Normal (password root) ∧
    (Main.check_email (Some (email root)) (world s1)).1
    = Raise (HTTPException 409 "already exists" "Email is already in use").
Proof.
  apply (create_account_then_read "u-root" root store0);
    try first [reflexivity | discriminate].
  intros j b Hj. change (accounts (world store0)) with (accounts world0) in Hj.
  unfold world0 in Hj. cbn in Hj.
  apply lookup_insert_Some in Hj as [[<- <-]|[_ Hj]]; [discriminate|].
  apply lookup_singleton_Some in Hj as [<- <-]. discriminate.
Defined.

Lemma create_family_fresh family_id f s :
  faults (world s) = [] →
  families (world s) !! family_id = None →
  create_family family_id f s =
  (Normal true,
   flush (set_world
            (set_stdout ("[DB] New family created" :: stdout (world s))
               (fresh_session (world s)))
            (set_family_work (<[family_id := f]> (families (world s))) (open_session s)))).
Proof.
  intros Hf Hx. unfold create_family, with_store_session.
  eapply try_finally_return_normal.
  - unfold family_add, modify_store.
    erewrite bind_normal; [|reflexivity]. cbn [family_work open_session].
    rewrite Hx.
    erewrite bind_normal; [reflexivity|]. by apply in_world_run.
  - by rewrite store_commit_ok.
Qed.

Lemma only_family_with_main (t : gmap string FamiliesTable) main_id i f :
  t !! i = Some f → main_user f = main_id →
  (∀ j g, t !! j = Some g → main_user g = main_id → j = i) →
  head (filter (λ p : string * FamiliesTable, main_user p.2 = main_id) (map_to_list t))
  = Some (i, f).
Proof.
  intros Hi Hm Honly.
  destruct (filter _ (map_to_list t)) as [|[j g] l] eqn:Hl.
  - assert (Hin : (i, f) ∈ filter (λ p : string * FamiliesTable, main_user p.2 = main_id)
                                  (map_to_list t)).
    { apply list_elem_of_filter. split; [done|]. by apply elem_of_map_to_list. }
    rewrite Hl in Hin. by apply elem_of_nil in Hin.
  - assert (Hin : (j, g) ∈ filter (λ p : string * FamiliesTable, main_user p.2 = main_id)
                                  (map_to_list t)).
    { rewrite Hl. apply elem_of_cons. by left. }
    apply list_elem_of_filter in Hin as [Hg Hin].
    apply elem_of_map_to_list in Hin.
    assert (j = i) as -> by eauto. by simplify_eq.
Qed.

(** X25: on a store without faults, a family created under a fresh id for
    a main user that has no family yet is found again:
    [main_id_to_family_id] of its main user returns its id, and
    [get_one_family] of that id returns its data. *)
Theorem create_family_then_find family_id f s :
  faults (world s) = [] →
  families (world s) !! family_id = None →
  (∀ j g, families (world s) !! j = Some g → main_user g ≠ main_user f) →
  ∃ s1,
    create_family family_id f s = (Normal true, s1) ∧
    families (world s1) = <[family_id := f]> (families (world s)) ∧
    (main_id_to_family_id (main_user f) (world s1)).1 = Normal family_id ∧
    (get_one_family family_id (world s1)).1 = Normal (serialize_family family_id f).
Proof.
  intros Hf Hx Hnone.
  eexists. split; [by apply create_family_fresh|].
  split; [reflexivity|]. split.
  - rewrite main_id_to_family_id_ok by done. cbn [fst].
    erewrite (only_family_with_main _ _ family_id f); [done| |done|].
    + cbn. apply lookup_insert_eq.
    + cbn. intros j g Hj Hg.
      apply lookup_insert_Some in Hj as [[? _]|[_ Hj]]; [done|].
      by destruct (Hnone j g Hj).
  - erewrite get_one_family_ok; [done|done|]. cbn. apply lookup_insert_eq.
Qed.

Lemma create_family_then_find_witness :
  ∃ s1,
    create_family "f-home" home store0 = (Normal true, s1) ∧
    families (world s1) = <["f-home" := home]> (families (world store0)) ∧
    (main_id_to_family_id (main_user home) (world s1)).1 = Normal "f-home" ∧
    (get_one_family "f-home" (world s1)).1 = Normal (serialize_family "f-home" home).
Proof.
  apply (create_family_then_find "f-home" home store0); [reflexivity|reflexivity|].
  intros j g Hj. change (families (world store0)) with (∅ : gmap string FamiliesTable) in Hj.
  by apply lookup_empty_Some in Hj.
Defined.

Lemma apply_family_update_twice u f :
  apply_family_update u (apply_family_update u f) = apply_family_update u f.
Proof. destruct u as [[?|] [?|]], f; reflexivity. Qed.

Lemma update_one_family_present family_id u f s :
  faults (world s) = [] →
  families (world s) !! family_id = Some f →
  update_one_family family_id u s =
  (Normal true,
   flush (set_family_work (<[family_id := apply_family_update u f]> (families (world s)))
            (open_session s))).
Proof.
  intros Hf Hfam. unfold update_one_family, with_store_session.
  assert (Halter : alter (apply_family_update u) family_id (families (world s))
                   = <[family_id := apply_family_update u f]> (families (world s))).
  { apply map_eq. intros k. rewrite lookup_alter, lookup_insert.
    repeat case_decide; simplify_eq; by rewrite ?Hfam. }
  rewrite <- Halter.
  eapply try_finally_return_normal.
  - erewrite bind_normal by by apply query_family_object_ok.
    cbn. rewrite Hfam. reflexivity.
  - by rewrite store_commit_ok.
Qed.

(** X26: on a store without faults [update_one_family] on a family that
    exists returns [True]; the main user and the name of the stored row are
    the new values where they are given and the old ones otherwise, the
    accounts table is untouched, and a second update with the same data
    changes nothing more. *)
Theorem update_one_family_partial family_id u f s :
  faults (world s) = [] →
  families (world s) !! family_id = Some f →
  ∃ s1 s2 f',
    update_one_family family_id u s = (Normal true, s1) ∧
    families (world s1) = <[family_id := f']> (families (world s)) ∧
    main_user f' = default (main_user f) (new_main_user u) ∧
    family_name f' = default (family_name f) (new_family_name u) ∧
    accounts (world s1) = accounts (world s) ∧
    update_one_family family_id u s1 = (Normal true, s2) ∧
    families (world s2) = families (world s1).
Proof.
  intros Hf Hfam.
  eexists _, _, (apply_family_update u f).
  split; [by apply update_one_family_present|].
  split; [reflexivity|].
  split; [by destruct u as [[?|] [?|]], f|].
  split; [by destruct u as [[?|] [?|]], f|].
  split; [reflexivity|]. split.
  - eapply (update_one_family_present _ _ (apply_family_update u f)); [done|].
    cbn. apply lookup_insert_eq.
  - cbn. rewrite apply_family_update_twice. apply insert_insert_eq.
Qed.

Lemma update_one_family_partial_witness :
  ∃ s1 s2 f',
    update_one_family "f-home" move_in store1 = (Normal true, s1) ∧
    families (world s1) = <["f-home" := f']> (families (world store1)) ∧
    main_user f' = default (main_user home) (new_main_user move_in) ∧
    family_name f' = default (family_name home) (new_family_name move_in) ∧
    accounts (world s1) = accounts (world store1) ∧
    update_one_family "f-home" move_in s1 = (Normal true, s2) ∧
    families (world s2) = families (world s1).
Proof.
  apply (update_one_family_partial "f-home" move_in home store1); reflexivity.
Defined.

(** ** Listing accounts *)

(** X27: whatever the store's faults [get_all_accounts] returns a list;
    every dictionary in it is the serialised row of an account of the table
    and has no ["password"] entry; on a store without faults every account
    of the table is in the list. *)
Theorem get_all_accounts_hides_passwords w :
  ∃ l, (get_all_accounts w).1 = Normal l ∧
       (∀ d, d ∈ l → d !! "password" = None ∧
                     ∃ i a, accounts w !! i = Some a ∧ d = serialize_account i a) ∧
       (faults w = [] → ∀ i a, accounts w !! i = Some a → serialize_account i a ∈ l).
Proof.
  assert (Hrows : ∀ d,
            d ∈ (λ data : string * AccountsTable, serialize_account data.1 data.2)
                <$> map_to_list (accounts w) →
            d !! "password" = None ∧
            ∃ i a, accounts w !! i = Some a ∧ d = serialize_account i a).
  { intros d ([i a] & -> & Hin)%list_elem_of_fmap.
    apply elem_of_map_to_list in Hin. split; [reflexivity|eauto]. }
  destruct (faults w) as [|[] fs] eqn:Hf.
  - exists ((λ data : string * AccountsTable, serialize_account data.1 data.2)
            <$> map_to_list (accounts w)).
    split; [|split; [done|]].
    + unfold get_all_accounts, query_all_accounts. unfold_db.
      by rewrite storage_call_ok by done.
    + intros _ i a Hi. apply list_elem_of_fmap. exists (i, a).
      split; [done|]. by apply elem_of_map_to_list.
  - exists []. split; [|split; [|done]].
    + unfold get_all_accounts, query_all_accounts. unfold_db.
      rewrite (storage_call_fault _ fs) by done. cbn. by storage_step.
    + intros d Hd. by apply elem_of_nil in Hd.
  - exists ((λ data : string * AccountsTable, serialize_account data.1 data.2)
            <$> map_to_list (accounts w)).
    split; [|split; [done|done]].
    unfold get_all_accounts, query_all_accounts. unfold_db.
    by rewrite (storage_call_pass _ fs) by done.
Qed.

Lemma get_all_accounts_hides_passwords_witness :
  ∃ l, (get_all_accounts world0).1 = Normal l ∧
       (∀ d, d ∈ l → d !! "password" = None) ∧
       serialize_account "u-bob" bob ∈ l.
Proof.
  destruct (get_all_accounts_hides_passwords world0) as (l & Hl & Hrows & Hall).
  exists l. split; [exact Hl|]. split.
  - intros d Hd. by apply Hrows.
  - apply Hall; reflexivity.
Defined.

Lemma get_all_account_id_ok w :
  faults w = [] →
  get_all_account_id w =
  (Normal ((λ data : string * AccountsTable, {[ "id" := VStr data.1 ]})
             <$> map_to_list (accounts w)), fresh_session w).
Proof.
  intros Hf. unfold get_all_account_id, with_session.
  eapply try_finally_return_normal; [|reflexivity].
  unfold query_all_accounts.
  erewrite bind_normal; [|erewrite bind_normal; [reflexivity|by apply storage_call_ok]].
  reflexivity.
Qed.

(** X28: on a store without faults [get_all_account_id] lists the ids of
    the accounts table, each of them once. *)
Theorem get_all_account_id_lists_ids w :
  faults w = [] →
  ∃ l, (get_all_account_id w).1 = Normal l ∧
       NoDup l ∧
       ∀ i, ({[ "id" := VStr i ]} : gmap string value) ∈ l ↔ is_Some (accounts w !! i).
Proof.
  intros Hf. rewrite get_all_account_id_ok by done. eexists. split; [reflexivity|].
  assert (Hinj : Inj (=) (=) (λ i : string, ({[ "id" := VStr i ]} : gmap string value))).
  { intros i j Heq. apply (f_equal (λ m : gmap string value, m !! "id")) in Heq.
    rewrite !lookup_singleton_eq in Heq. congruence. }
  assert (Hshape : (λ data : string * AccountsTable, ({[ "id" := VStr data.1 ]} : gmap string value))
                   <$> map_to_list (accounts w)
                   = (λ i : string, ({[ "id" := VStr i ]} : gmap string value))
                     <$> (map_to_list (accounts w)).*1).
  { by rewrite <- list_fmap_compose. }
  split.
  - rewrite Hshape. apply NoDup_fmap_2; [done|]. apply NoDup_fst_map_to_list.
  - intros i. rewrite list_elem_of_fmap. split.
    + intros ([j a] & Heq & Hin). apply Hinj in Heq as ->.
      apply elem_of_map_to_list in Hin. by exists a.
    + intros [a Ha]. exists (i, a). split; [done|]. by apply elem_of_map_to_list.
Qed.

Lemma get_all_account_id_lists_ids_witness :
  ∃ l, (get_all_account_id world0).1 = Normal l ∧
       NoDup l ∧
       ∀ i, ({[ "id" := VStr i ]} : gmap string value) ∈ l ↔ is_Some (accounts world0 !! i).
Proof. apply (get_all_account_id_lists_ids world0). reflexivity. Defined.
